(** * podcastfy: template loading and PDF text extraction

    A shallow embedding of
      - [podcastfy/template_reader.py]   (class [TemplateLoader])
      - [podcastfy/content_parser/pdf_extractor.py] (class [PDFExtractor])
    together with the properties of both that the specification states.

    Python [str] values are sequences of Unicode code points; they are
    modelled as lists of code points ([N]).  The few library functions the
    two modules call ([str.strip], [str.split], [str.join], [str.replace],
    [str.format], [os.path.basename], [os.path.splitext], [re.search]) are
    modelled next to the code that uses them; [os.path] is the POSIX one.
    The values of a data mapping are given by the strings that [str()] makes
    of them.  Logging calls have no effect on return values or on object
    state and are left out. *)

From Stdlib Require Import String Ascii.
From stdpp Require Import gmap list.

Open Scope N_scope.

(** ** Text *)

Module Text.

Abbreviation char := N (only parsing).
Abbreviation text := (list N) (only parsing).

(** String literals of the development: the code points of an ASCII literal. *)
Fixpoint u (s : string) : text :=
  match s with
  | EmptyString => []
  | String a s' => N_of_ascii a :: u s'
  end.

Definition nl : char := 10.
Definition space : char := 32.

(** [str.isspace] for one code point, which is also what [\s] of a [str]
    pattern, [str.split()] and [str.strip()] test: the code points with
    bidirectional class WS, B or S, or category Zs. *)
Definition isspace (c : char) : bool :=
  ((9 <=? c) && (c <=? 13))
  || ((28 <=? c) && (c <=? 32))
  || (c =? 133) || (c =? 160) || (c =? 5760)
  || ((8192 <=? c) && (c <=? 8202))
  || (c =? 8232) || (c =? 8233) || (c =? 8239) || (c =? 8287)
  || (c =? 12288).

(** [s.lstrip()], [s.rstrip()], [s.strip()] *)
Fixpoint lstrip (s : text) : text :=
  match s with
  | c :: s' => if isspace c then lstrip s' else s
  | [] => []
  end.

Definition rstrip (s : text) : text := rev (lstrip (rev s)).

Definition strip (s : text) : text := rstrip (lstrip s).

(** [s.split()]: the maximal runs of non-whitespace, in order.  [cur] is the
    run being read. *)
Fixpoint split_from (cur : text) (s : text) : list text :=
  match s with
  | [] => match cur with [] => [] | _ => [cur] end
  | c :: s' =>
      if isspace c
      then match cur with [] => split_from [] s' | _ => cur :: split_from [] s' end
      else split_from (cur ++ [c]) s'
  end.

Definition split (s : text) : list text := split_from [] s.

(** [sep.join(parts)] *)
Fixpoint join (sep : text) (parts : list text) : text :=
  match parts with
  | [] => []
  | [p] => p
  | p :: ps => p ++ sep ++ join sep ps
  end.

(** [s.startswith(p)] and [s.endswith(p)] *)
Fixpoint startswith (p s : text) : bool :=
  match p, s with
  | [], _ => true
  | a :: p', b :: s' => (a =? b) && startswith p' s'
  | _ :: _, [] => false
  end.

Definition endswith (p s : text) : bool := startswith (rev p) (rev s).

(** [s.replace(old, new)] for a non-empty [old]: occurrences are found from the
    left and do not overlap.  [skip] counts the characters of the occurrence
    just replaced that are still to be passed over. *)
Fixpoint replace_from (old new : text) (skip : nat) (s : text) : text :=
  match s with
  | [] => []
  | c :: s' =>
      match skip with
      | S k => replace_from old new k s'
      | O =>
          if startswith old s
          then new ++ replace_from old new (length old - 1)%nat s'
          else c :: replace_from old new 0%nat s'
      end
  end.

Definition replace (old new : text) (s : text) : text := replace_from old new 0%nat s.

Definition nonspace (c : char) : Prop := isspace c = false.

(** A word: not empty, no whitespace in it. *)
Definition word (w : text) : Prop := w <> [] /\ Forall nonspace w.

End Text.
Export Text.


(** ** Exceptions and the Unicode character database *)

(** The exceptions the two modules meet.  [except Exception] catches them all;
    [except KeyError] only the first. *)
Inductive exception :=
| KeyError (key : text)
| ValueError
| IndexError
| OtherException.

(** The tables of the Unicode character database that Python consults on
    behalf of the code.  Their contents are not part of this repository, so
    they are taken as they come:
      - [normalize_NFKD] is [unicodedata.normalize('NFKD', _)];
      - [isalnum_ext c], for a code point above 127, is [chr(c).isalnum()];
      - [isdecimal_ext c], for a code point above 127, is [chr(c).isdecimal()]. *)
Record unicodedata := {
  normalize_NFKD : text -> text;
  isalnum_ext : char -> bool;
  isdecimal_ext : char -> bool
}.

(** ** os.path (POSIX flavour) *)

Module PosixPath.

Definition sep : char := 47.     (* "/" *)
Definition extsep : char := 46.  (* "." *)

(** [s.rfind(c)]: the index of the last [c] in [s], or [-1]. *)
Fixpoint rfind (c : char) (s : text) : Z :=
  match s with
  | [] => (-1)%Z
  | a :: s' =>
      let r := rfind c s' in
      if (0 <=? r)%Z then (r + 1)%Z else if a =? c then 0%Z else (-1)%Z
  end.

(** [p[i:]] and [p[:i]] for an index [i >= 0] *)
Definition from_index (i : Z) (p : text) : text := drop (Z.to_nat i) p.
Definition upto_index (i : Z) (p : text) : text := take (Z.to_nat i) p.

(** [os.path.basename(p)] *)
Definition basename (p : text) : text :=
  let i := (rfind sep p + 1)%Z in
  from_index i p.

(** The loop of [genericpath._splitext] that skips the leading dots of the file
    name: [n] is [dotIndex - filenameIndex]; the result says whether a
    character other than the dot was met before [dotIndex]. *)
Fixpoint non_dot_before (p : text) (filenameIndex : nat) (n : nat) : bool :=
  match n with
  | O => false
  | S n' =>
      match p !! filenameIndex with
      | Some c => if c =? extsep then non_dot_before p (S filenameIndex) n' else true
      | None => true
      end
  end.

(** [os.path.splitext(p)] *)
Definition splitext (p : text) : text * text :=
  let sepIndex := rfind sep p in
  let dotIndex := rfind extsep p in
  if (dotIndex >? sepIndex)%Z
  then
    if non_dot_before p (Z.to_nat (sepIndex + 1)) (Z.to_nat (dotIndex - (sepIndex + 1)))
    then (upto_index dotIndex p, from_index dotIndex p)
    else (p, [])
  else (p, []).

(** One turn of the loop of [os.path.join]: a component that starts with the
    separator starts the path afresh; otherwise it is appended, after a
    separator unless the path is empty or ends in one. *)
Definition join_step (path b : text) : text :=
  if startswith [sep] b then b
  else if (match path with [] => true | _ => false end) || endswith [sep] path
       then path ++ b
       else path ++ [sep] ++ b.

(** [os.path.join(a, *p)] *)
Definition join_path (a : text) (p : list text) : text := fold_left join_step p a.

End PosixPath.

(** ** str.format, called with keyword arguments only *)

Module Format.

Section Formatter.

Context (ucd : unicodedata).

(** What Python does with a replacement field that is more than a bare name:
    the attribute and index accessors after the first part of the field name,
    the conversion ([!r], [!s], [!a]) and the format specification (which may
    itself contain replacement fields).  It receives the object found under the
    first part of the name, and either renders it or raises. *)
Variable format_field_ext :
  text -> text -> option char -> text -> gmap text text -> exception + text.

Definition lbrace : char := 123.
Definition rbrace : char := 125.
Definition lbracket : char := 91.
Definition rbracket : char := 93.
Definition colon : char := 58.
Definition bang : char := 33.
Definition dot : char := 46.

Definition isdecimal (c : char) : bool :=
  if c <? 128 then (48 <=? c) && (c <=? 57) else isdecimal_ext ucd c.

(** [field_name_split]: the first part of a field name runs up to the first
    ["."] or ["["]; the accessors follow. *)
Fixpoint field_name_split (name : text) : text * text :=
  match name with
  | [] => ([], [])
  | c :: name' =>
      if (c =? dot) || (c =? lbracket) then ([], name)
      else let '(first, rest) := field_name_split name' in (c :: first, rest)
  end.

(** [get_field_object] and [render_field] for one replacement field, called
    with no positional argument: an empty or numeric first part indexes the
    empty argument tuple.  (For a number too large to be an index Python
    raises [ValueError] where this raises [IndexError]; the caller treats the
    two alike, as it does every exception other than [KeyError].) *)
Definition output_markup (kwargs : gmap text text)
    (field_name : text) (conversion : option char) (format_spec : text)
  : exception + text :=
  let '(first, rest) := field_name_split field_name in
  if forallb isdecimal first then inl IndexError
  else
    match kwargs !! first with
    | None => inl (KeyError first)
    | Some obj =>
        match rest, conversion, format_spec with
        | [], None, [] => inr obj
        | _, _, _ => format_field_ext obj rest conversion format_spec kwargs
        end
    end.

(** What the scan of a template yields, piece by piece: a character of
    literal text (an escaped brace counts as one) or a replacement field. *)
Inductive item :=
| Literal (c : char)
| Field (field_name : text) (conversion : option char) (format_spec : text).

(** Where the scan of the template stands. *)
Inductive scan :=
| InText                                   (* literal text *)
| AfterOpen                                (* a "{" was read *)
| AfterClose                               (* a "}" was read *)
| InName (name : text)                     (* in a field name *)
| InIndex (name : text)                    (* in a field name, inside [...] *)
| AfterBang (name : text)                  (* "!" read: the conversion follows *)
| AfterConversion (name : text) (conv : char)
| InSpec (name : text) (conv : option char) (spec : text) (depth : nat).

(** [MarkupIterator_next] and [parse_field], one character at a time: the
    pieces in order, and whether the scan reached the end of the template
    (otherwise it stopped on a syntax error, after the pieces listed). *)
Fixpoint parse_from (st : scan) (s : text) : list item * bool :=
  match s with
  | [] => ([], match st with InText => true | _ => false end)
  | c :: s' =>
      let continue st' := parse_from st' s' in
      let emit i := let '(items, ok) := parse_from InText s' in (i :: items, ok) in
      let syntax_error : list item * bool := ([], false) in
      match st with
      | InText =>
          if c =? lbrace then continue AfterOpen
          else if c =? rbrace then continue AfterClose
          else emit (Literal c)
      | AfterOpen =>
          if c =? lbrace then emit (Literal lbrace)
          else if c =? rbrace then emit (Field [] None [])
          else if c =? colon then continue (InSpec [] None [] 1)
          else if c =? bang then continue (AfterBang [])
          else if c =? lbracket then continue (InIndex [c])
          else continue (InName [c])
      | AfterClose =>
          if c =? rbrace then emit (Literal rbrace)
          else syntax_error
      | InName name =>
          if c =? lbrace then syntax_error
          else if c =? rbrace then emit (Field name None [])
          else if c =? colon then continue (InSpec name None [] 1)
          else if c =? bang then continue (AfterBang name)
          else if c =? lbracket then continue (InIndex (name ++ [c]))
          else continue (InName (name ++ [c]))
      | InIndex name =>
          if c =? rbracket then continue (InName (name ++ [c]))
          else continue (InIndex (name ++ [c]))
      | AfterBang name => continue (AfterConversion name c)
      | AfterConversion name conv =>
          if c =? rbrace then emit (Field name (Some conv) [])
          else if c =? colon then continue (InSpec name (Some conv) [] 1)
          else syntax_error
      | InSpec name conv spec depth =>
          if c =? lbrace then continue (InSpec name conv (spec ++ [c]) (S depth))
          else if c =? rbrace then
            match depth with
            | S (S d) => continue (InSpec name conv (spec ++ [c]) (S d))
            | _ => emit (Field name conv spec)
            end
          else continue (InSpec name conv (spec ++ [c]) depth)
      end
  end.

Definition parse (template : text) : list item * bool := parse_from InText template.

(** The pieces are written out in order; the first field that fails ends the
    formatting with its exception, and a syntax error is met only after the
    pieces before it. *)
Fixpoint render (kwargs : gmap text text) (items : list item) (ok : bool) (out : text)
  : exception + text :=
  match items with
  | [] => if ok then inr out else inl ValueError
  | Literal c :: items' => render kwargs items' ok (out ++ [c])
  | Field field_name conversion format_spec :: items' =>
      match output_markup kwargs field_name conversion format_spec with
      | inl e => inl e
      | inr v => render kwargs items' ok (out ++ v)
      end
  end.

(** [template.format] applied to the keyword arguments [kwargs] *)
Definition format (template : text) (kwargs : gmap text text) : exception + text :=
  let '(items, ok) := parse template in
  render kwargs items ok [].

End Formatter.

(** The names the replacement fields of a template look up in the keyword
    arguments: the first part of each field name. *)
Definition placeholders (template : text) : list text :=
  omap (fun i => match i with
                 | Field field_name _ _ => Some (fst (field_name_split field_name))
                 | Literal _ => None
                 end)
       (fst (parse template)).

End Format.

(** ** podcastfy/template_reader.py *)

Module TemplateReader.

(** An instance of [TemplateLoader]: the cache set up by [__init__], and the
    attribute [template], absent until [fill_template] first succeeds. *)
Record TemplateLoader := {
  template_cache : gmap text text;
  template : option text
}.

(** [TemplateLoader()] *)
Definition init : TemplateLoader :=
  {| template_cache := ∅; template := None |}.

(** What lies at a path: a file that [open(path, 'r')] and [f.read()] turn
    into a string, or something that exists and cannot be read so
    (a directory, a file without read permission, bytes that do not decode). *)
Inductive node :=
| File (content : text)
| Unreadable.

(** [os.path.exists(path)] *)
Definition exists_ (fs : gmap text node) (path : text) : bool :=
  match fs !! path with Some _ => true | None => false end.

Definition ext_md : text := u ".md".
Definition ext_txt : text := u ".txt".

(** The key under which [load_content] caches a path. *)
Definition cache_key (template_path : text) : text :=
  fst (PosixPath.splitext (PosixPath.basename template_path)).

(** [load_content]: the value returned and the instance afterwards. *)
Definition load_content (self : TemplateLoader) (fs : gmap text node)
    (template_path : text) : text * TemplateLoader :=
  let basename := fst (PosixPath.splitext (PosixPath.basename template_path)) in
  match template_cache self !! basename with
  | Some cached => (cached, self)
  | None =>
      if negb (exists_ fs template_path) then ([], self)
      else if negb (endswith ext_md template_path || endswith ext_txt template_path)
      then ([], self)
      else
        match fs !! template_path with
        | Some (File template) =>
            (template,
             {| template_cache := <[basename := template]> (template_cache self);
                template := TemplateReader.template self |})
        | _ => ([], self)
        end
  end.

Section FillTemplate.

Context (ucd : unicodedata).
Variable format_field_ext :
  text -> text -> option char -> text -> gmap text text -> exception + text.

(** [fill_template]: the value returned and the instance afterwards. *)
Definition fill_template (self : TemplateLoader) (template : text)
    (data : gmap text text) : text * TemplateLoader :=
  match Format.format ucd format_field_ext template data with
  | inr filled =>
      (filled, {| template_cache := template_cache self; template := Some filled |})
  | inl (KeyError _) => (template, self)
  | inl _ => (template, self)
  end.

End FillTemplate.

(** The three steps of [get_template] that follow the load. *)
Definition flatten (template : text) : text :=
  let formatted := replace [nl; nl] [nl] template in
  let formatted := join [space] (split formatted) in
  let formatted := strip formatted in
  formatted.

(** [get_template] *)
Definition get_template (self : TemplateLoader) (fs : gmap text node)
    (template_type : text) : text * TemplateLoader :=
  let '(template, self') := load_content self fs template_type in
  (flatten template, self').

(** A call of one of the three methods, with the file system as it is when
    the call is made. *)
Inductive call :=
| LoadContent (fs : gmap text node) (template_path : text)
| FillTemplate (template : text) (data : gmap text text)
| GetTemplate (fs : gmap text node) (template_type : text).

Section Lifetime.

Context (ucd : unicodedata).
Variable format_field_ext :
  text -> text -> option char -> text -> gmap text text -> exception + text.

(** The instance after a call. *)
Definition perform (self : TemplateLoader) (c : call) : TemplateLoader :=
  match c with
  | LoadContent fs template_path => snd (load_content self fs template_path)
  | FillTemplate template data =>
      snd (fill_template ucd format_field_ext self template data)
  | GetTemplate fs template_type => snd (get_template self fs template_type)
  end.

(** The instance after a sequence of calls. *)
Definition run (self : TemplateLoader) (calls : list call) : TemplateLoader :=
  fold_left perform calls self.

End Lifetime.

End TemplateReader.

(** ** re.search for the patterns of the extractor *)

Module Regex.

(** The fragment of the pattern language that [ref_patterns] is written in. *)
Inductive regex :=
| Chr (c : char)              (* a literal character *)
| Cls (f : char -> bool)      (* a character class, [...] or \s *)
| Bol                         (* ^ *)
| Wordb                       (* \b *)
| Seq (r1 r2 : regex)
| Alt (r1 r2 : regex)         (* r1|r2 *)
| StarCls (f : char -> bool)  (* a starred character class *)
| Opt (r : regex).            (* r? *)

Section Matcher.

Context (ucd : unicodedata).

Definition isalnum (c : char) : bool :=
  if c <? 128
  then ((48 <=? c) && (c <=? 57)) || ((65 <=? c) && (c <=? 90)) || ((97 <=? c) && (c <=? 122))
  else isalnum_ext ucd c.

(** \w of a [str] pattern *)
Definition is_word (c : char) : bool := isalnum c || (c =? 95).

Definition is_word_at (c : option char) : bool :=
  match c with Some c => is_word c | None => false end.

(** The code points a literal of a [str] pattern matches under
    [re.IGNORECASE]: for an ASCII letter both its cases, and the code points
    whose lower case is that letter or is tied to it (dotted capital I and
    dotless i for "i", long s for "s", the Kelvin sign for "k"). *)
Definition ignorecase_set (p : char) : list char :=
  let lo := if (65 <=? p) && (p <=? 90) then p + 32 else p in
  if (97 <=? lo) && (lo <=? 122)
  then [lo; lo - 32] ++
       (if lo =? 105 then [304; 305]
        else if lo =? 115 then [383]
        else if lo =? 107 then [8490]
        else [])
  else [p].

Definition chr_ignorecase (p a : char) : bool :=
  existsb (N.eqb a) (ignorecase_set p).

(** [starcls f k prev s]: some number of characters of class [f], longest
    first, and then [k]. *)
Fixpoint starcls (f : char -> bool) (k : option char -> text -> bool)
    (prev : option char) (s : text) : bool :=
  match s with
  | a :: s' => (f a && starcls f k (Some a) s') || k prev s
  | [] => k prev s
  end.

(** [matches r prev s k]: [r] matches a prefix of [s], the text before [s]
    ending in [prev] ([None] at the start of the text), and [k] accepts what
    follows.  The flag [re.IGNORECASE] is on, [re.MULTILINE] is off. *)
Fixpoint matches (r : regex) (prev : option char) (s : text)
    (k : option char -> text -> bool) : bool :=
  match r with
  | Chr c =>
      match s with
      | a :: s' => chr_ignorecase c a && k (Some a) s'
      | [] => false
      end
  | Cls f =>
      match s with
      | a :: s' => f a && k (Some a) s'
      | [] => false
      end
  | Bol => match prev with None => k prev s | Some _ => false end
  | Wordb => xorb (is_word_at prev) (is_word_at (head s)) && k prev s
  | Seq r1 r2 => matches r1 prev s (fun prev' s' => matches r2 prev' s' k)
  | Alt r1 r2 => matches r1 prev s k || matches r2 prev s k
  | StarCls f => starcls f k prev s
  | Opt r' => matches r' prev s k || k prev s
  end.

(** [r] matches at the position between [prev] and [s]. *)
Definition matches_here (r : regex) (prev : option char) (s : text) : bool :=
  matches r prev s (fun _ _ => true).

(** The scan of [re.search]: the start positions are tried from the left;
    [pos] is the offset of [s] in the text. *)
Fixpoint search_from (r : regex) (prev : option char) (s : text) (pos : nat)
  : option nat :=
  if matches_here r prev s then Some pos
  else
    match s with
    | [] => None
    | a :: s' => search_from r (Some a) s' (S pos)
    end.

(** [re.search(r, text, re.IGNORECASE)]: [match.start()] if there is a match. *)
Definition search (r : regex) (text : Text.text) : option nat :=
  search_from r None text 0%nat.

(** [r] matches at offset [i] of [text]. *)
Definition matches_at (r : regex) (text : Text.text) (i : nat) : bool :=
  matches_here r (last (take i text)) (drop i text).

End Matcher.

(** The literal characters of [s], in sequence, and then [r]. *)
Fixpoint lit (s : string) (r : regex) : regex :=
  match s with
  | EmptyString => r
  | String a s' => Seq (Chr (N_of_ascii a)) (lit s' r)
  end.

End Regex.

(** ** podcastfy/content_parser/pdf_extractor.py *)

Module PdfExtractor.

Import Regex.

(** The class [:\s\n] *)
Definition delimiter (c : char) : bool := (c =? 58) || isspace c || (c =? nl).

(** (?:^|\n)\s* *)
Definition line_start (r : regex) : regex :=
  Seq (Alt Bol (Chr nl)) (Seq (StarCls isspace) r).

(** \b[:\s\n] *)
Definition header_end : regex := Seq Wordb (Cls delimiter).

(** (?:^|\n)\s*References?\b[:\s\n] *)
Definition pat_references : regex :=
  line_start (lit "Reference" (Seq (Opt (Chr 115)) header_end)).

(** (?:^|\n)\s*Bibliography\b[:\s\n] *)
Definition pat_bibliography : regex := line_start (lit "Bibliography" header_end).

(** (?:^|\n)\s*Literature cited\b[:\s\n] *)
Definition pat_literature_cited : regex := line_start (lit "Literature cited" header_end).

(** (?:^|\n)\s*Works cited\b[:\s\n] *)
Definition pat_works_cited : regex := line_start (lit "Works cited" header_end).

Definition ref_patterns : list regex :=
  [ pat_references; pat_bibliography; pat_literature_cited; pat_works_cited ].

(** A document as the PDF library presents it: for each page, in order, what
    [page.get_text()] does, return the text or raise (a failure of the
    iteration itself counts for the page it should have produced). *)
Definition document := list (exception + text).

(** The state the extractor acts on is the number of document handles that are
    open; a computation returns or raises, and leaves a new state. *)
Definition M (A : Type) : Type := nat -> (exception + A) * nat.

#[export] Instance M_ret : MRet M := fun A (a : A) handles => (inr a, handles).

#[export] Instance M_bind : MBind M := fun A B (f : A -> M B) (m : M A) handles =>
  match m handles with
  | (inr a, handles') => f a handles'
  | (inl e, handles') => (inl e, handles')
  end.

Definition raise {A} (e : exception) : M A := fun handles => (inl e, handles).

(** [try: body except Exception as e: handler(e)] *)
Definition try_except {A} (body : M A) (handler : exception -> M A) : M A :=
  fun handles =>
    match body handles with
    | (inr a, handles') => (inr a, handles')
    | (inl e, handles') => handler e handles'
    end.

Section Extractor.

Context (ucd : unicodedata).

(** [pymupdf.open]: the document at a path, or the exception raised for a
    missing or corrupt file. *)
Variable pymupdf : text -> exception + document.

Definition pymupdf_open (file_path : text) : M document :=
  fun handles =>
    match pymupdf file_path with
    | inr doc => (inr doc, S handles)
    | inl e => (inl e, handles)
    end.

(** [doc.close()] *)
Definition close (doc : document) : M unit :=
  fun handles => (inr tt, pred handles).

(** [page.get_text() for page in doc], consumed from the first page on. *)
Fixpoint page_texts (doc : document) : M (list text) :=
  match doc with
  | [] => mret []
  | inr t :: doc' => ts ← page_texts doc'; mret (t :: ts)
  | inl e :: _ => raise e
  end.

(** [_ref_cleaner] *)
Definition _ref_cleaner (text : Text.text) : Text.text :=
  let min_pos :=
    fold_left
      (fun min_pos pattern =>
         match search ucd pattern text with
         | Some start => if (start <? min_pos)%nat then start else min_pos
         | None => min_pos
         end)
      ref_patterns (length text) in
  strip (take min_pos text).

(** [extract_content] *)
Definition extract_content (file_path : text) (remove_refs : bool) : M text :=
  try_except
    (doc ← pymupdf_open file_path;
     texts ← page_texts doc;
     let content := join [space] texts in
     _ ← close doc;
     let normalized_content := normalize_NFKD ucd content in
     let normalized_content :=
       if remove_refs then _ref_cleaner normalized_content else normalized_content in
     mret normalized_content)
    (fun e => raise e).

End Extractor.

Section Main.

Context (ucd : unicodedata).
Variable pymupdf : text -> exception + document.

(** [str(e)] for an exception [e]. *)
Variable str_exception : exception -> text.

(** The path [main] builds from the directory of the script. *)
Definition pdf_path (script_dir : text) : text :=
  PosixPath.join_path script_dir [u ".."; u ".."; u "tests"; u "data"; u "file.pdf"].

(** [content[:500] + "..." if len(content) > 500 else content] *)
Definition preview (content : text) : text :=
  if (500 <? length content)%nat then take 500 content ++ u "..." else content.

(** [main]: what the calls of [print] are given, in order, and the number of
    open handles afterwards.  [script_dir] is the directory of the script
    file; the seeding of the random generator has no bearing on either, and
    printing is taken to succeed. *)
Definition main (script_dir : text) (handles : nat) : list text * nat :=
  match extract_content ucd pymupdf (pdf_path script_dir) true handles with
  | (inr content, handles') =>
      ([u "PDF content extracted successfully:"; preview content], handles')
  | (inl e, handles') =>
      ([u "An error occurred: " ++ str_exception e], handles')
  end.

End Main.

End PdfExtractor.

(** ** The specification's wording, for comparison with the code *)

Module Spec.

Import Regex PdfExtractor.

(** The smallest start offset among the leftmost matches of [patterns] in
    [text]; the length of [text] if none of them matches. *)
Definition boundary (ucd : unicodedata) (patterns : list regex) (text : Text.text) : nat :=
  foldr Nat.min (length text) (omap (fun p => search ucd p text) patterns).

(** The four section headers as the specification names them: [References],
    [Bibliography], [Literature cited], [Works cited]. *)
Definition header_patterns : list regex :=
  [ line_start (lit "References" header_end);
    pat_bibliography; pat_literature_cited; pat_works_cited ].

(** Truncation before the earliest of the four headers, then trimming. *)
Definition ref_cleaner (ucd : unicodedata) (text : Text.text) : Text.text :=
  strip (take (boundary ucd header_patterns text) text).

(** Every run of whitespace becomes one space; [in_run] says that the
    character before was whitespace. *)
Fixpoint collapse_from (in_run : bool) (s : text) : text :=
  match s with
  | [] => []
  | c :: s' =>
      if isspace c
      then (if in_run then collapse_from true s' else space :: collapse_from true s')
      else c :: collapse_from false s'
  end.

(** Double newlines to single newlines, once; runs of whitespace to single
    spaces; trimmed. *)
Definition flatten (content : text) : text :=
  strip (collapse_from false (replace [nl; nl] [nl] content)).

End Spec.

(** ** Templates given by their pieces *)

Module Pieces.

Import Format.

(** A template as its author thinks of it: stretches of literal text and
    placeholders. *)
Inductive piece :=
| Lit (s : text)
| Hole (name : text).

(** Literal text as it has to be written in a template: braces doubled. *)
Definition escape (s : text) : text :=
  flat_map (fun c => if (c =? lbrace) || (c =? rbrace) then [c; c] else [c]) s.

(** The template text of a list of pieces. *)
Definition template_of (pieces : list piece) : text :=
  flat_map (fun p => match p with
                     | Lit s => escape s
                     | Hole name => [lbrace] ++ name ++ [rbrace]
                     end) pieces.

(** The characters that end or structure a field name. *)
Definition name_char (c : char) : bool :=
  negb ((c =? lbrace) || (c =? rbrace) || (c =? lbracket) || (c =? dot)
        || (c =? bang) || (c =? colon)).

(** A placeholder name that is looked up as it stands: none of the
    structuring characters in it, and not a number (nor empty). *)
Definition bare_name (ucd : unicodedata) (name : text) : bool :=
  forallb name_char name && negb (forallb (isdecimal ucd) name).

(** The pieces with the placeholders replaced by their values; [None] if a
    value is missing. *)
Fixpoint substitute (data : gmap text text) (pieces : list piece) : option text :=
  match pieces with
  | [] => Some []
  | Lit s :: pieces' => (fun rest => s ++ rest) <$> substitute data pieces'
  | Hole name :: pieces' =>
      match data !! name with
      | Some v => (fun rest => v ++ rest) <$> substitute data pieces'
      | None => None
      end
  end.

(** What the scan of [template_of pieces] yields. *)
Definition items_of (pieces : list piece) : list item :=
  flat_map (fun p => match p with
                     | Lit s => map Literal s
                     | Hole name => [Field name None []]
                     end) pieces.

(** The placeholders of the pieces have names that are looked up as they
    stand. *)
Definition bare_holes (ucd : unicodedata) (pieces : list piece) : Prop :=
  Forall (fun p => match p with
                   | Lit _ => True
                   | Hole name => bare_name ucd name = true
                   end) pieces.

End Pieces.

(** Upper case for the letters a to z, other characters as they are. *)
Definition ascii_upper (c : char) : char :=
  if (97 <=? c) && (c <=? 122) then c - 32 else c.

(** A pattern whose literals and classes do not tell a letter from its upper
    case. *)
Fixpoint case_blind (r : Regex.regex) : Prop :=
  match r with
  | Regex.Chr p =>
      forall a, Regex.chr_ignorecase p (ascii_upper a) = Regex.chr_ignorecase p a
  | Regex.Cls f | Regex.StarCls f => forall a, f (ascii_upper a) = f a
  | Regex.Bol | Regex.Wordb => True
  | Regex.Seq r1 r2 | Regex.Alt r1 r2 => case_blind r1 /\ case_blind r2
  | Regex.Opt r' => case_blind r'
  end.

(** ** Tables and inputs for the examples *)

(** The character database cut down to ASCII text: there NFKD changes
    nothing, and the other two tables are not consulted. *)
Definition ascii_tables : unicodedata :=
  {| normalize_NFKD := fun t => t;
     isalnum_ext := fun _ => false;
     isdecimal_ext := fun _ => false |}.

(** For templates whose fields are bare names, the rendering of other fields
    is never called. *)
Definition bare_fields_only
  : text -> text -> option char -> text -> gmap text text -> exception + text :=
  fun _ _ _ _ _ => inl OtherException.

(** ["Line1\n\nLine2\n\nLine3"] *)
Definition three_lines : text :=
  u "Line1" ++ [nl; nl] ++ u "Line2" ++ [nl; nl] ++ u "Line3".

(** ["Body text.\nWorks cited\n[1] Doe, A study of things.\nBibliography:\n[2] Roe."]:
    the line [Works cited] starts at offset 10, the line [Bibliography:] at
    offset 50. *)
Definition two_headers : text :=
  u "Body text." ++ [nl] ++ u "Works cited" ++ [nl]
  ++ u "[1] Doe, A study of things." ++ [nl] ++ u "Bibliography:" ++ [nl] ++ u "[2] Roe.".

(** ["Intro\nReference: x"] *)
Definition singular_header : text := u "Intro" ++ [nl] ++ u "Reference: x".

(** NFKD on texts of ASCII characters and of the letter e with acute accent
    (U+00E9), which decomposes into e and the combining acute accent
    (U+0301). *)
Definition decomposing_tables : unicodedata :=
  {| normalize_NFKD := flat_map (fun c => if c =? 233 then [101; 769] else [c]);
     isalnum_ext := fun c => c =? 233;
     isdecimal_ext := fun _ => false |}.

(** * Properties *)

(** ** Text *)

Section TextFacts.

Implicit Types (s w cur : text) (c : char) (ws : list text).

Lemma lstrip_nonspace c s : nonspace c -> lstrip (c :: s) = c :: s.
Proof. unfold nonspace. intros H. simpl. now rewrite H. Qed.

Lemma lstrip_snoc s c :
  lstrip (s ++ [c]) =
  if forallb isspace s then (if isspace c then [] else [c]) else lstrip s ++ [c].
Proof.
  induction s as [|a s IH]; simpl.
  - destruct (isspace c); reflexivity.
  - destruct (isspace a); simpl; [exact IH | reflexivity].
Qed.

Lemma rstrip_snoc_nonspace s c : nonspace c -> rstrip (s ++ [c]) = s ++ [c].
Proof.
  intros H. unfold rstrip. rewrite rev_app_distr.
  change (rev [c] ++ rev s) with (c :: rev s).
  rewrite lstrip_nonspace by exact H.
  change (c :: rev s) with (rev [c] ++ rev s).
  rewrite <- rev_app_distr. apply rev_involutive.
Qed.

Lemma rstrip_snoc_space s c : isspace c = true -> rstrip (s ++ [c]) = rstrip s.
Proof.
  intros H. unfold rstrip. rewrite rev_app_distr. simpl. now rewrite H.
Qed.

Lemma rstrip_nil : rstrip [] = [].
Proof. reflexivity. Qed.

(** Trailing text that does not strip to nothing shields what is before it. *)
Lemma rstrip_app s t : rstrip t <> [] -> rstrip (s ++ t) = s ++ rstrip t.
Proof.
  induction t as [|c t IH] using rev_ind; intros Hne.
  - now destruct Hne.
  - destruct (isspace c) eqn:Hc.
    + rewrite rstrip_snoc_space in Hne |- * by exact Hc.
      rewrite app_assoc, rstrip_snoc_space by exact Hc. now apply IH.
    + rewrite app_assoc, !rstrip_snoc_nonspace by exact Hc.
      now rewrite app_assoc.
Qed.

Lemma word_snoc cur c : Forall nonspace cur -> nonspace c -> word (cur ++ [c]).
Proof.
  intros Hcur Hc. split.
  - now destruct cur.
  - apply Forall_app. split; [exact Hcur | now constructor].
Qed.

Lemma rstrip_word w : word w -> rstrip w = w.
Proof.
  intros [Hne Hw]. destruct w as [|c w] using rev_ind; [now destruct Hne|].
  apply Forall_app in Hw as [_ Hc]. apply rstrip_snoc_nonspace.
  now inversion Hc.
Qed.

Lemma word_not_nil w : word w -> w <> [].
Proof. now intros [? _]. Qed.

Lemma split_from_nonspace cur w s :
  Forall nonspace w -> split_from cur (w ++ s) = split_from (cur ++ w) s.
Proof.
  intros Hw. revert cur. induction Hw as [|c w Hc _ IH]; intros cur.
  - now rewrite app_nil_r.
  - simpl. rewrite Hc, IH. now rewrite <- app_assoc.
Qed.

Lemma split_from_space cur c s :
  isspace c = true -> cur <> [] -> split_from cur (c :: s) = cur :: split_from [] s.
Proof. intros Hc Hne. simpl. rewrite Hc. now destruct cur. Qed.

Lemma split_from_end cur : cur <> [] -> split_from cur [] = [cur].
Proof. now destruct cur. Qed.

(** What [split] returns are words. *)
Lemma split_from_words cur s : Forall nonspace cur -> Forall word (split_from cur s).
Proof.
  revert cur. induction s as [|c s IH]; intros cur Hcur; simpl.
  - destruct cur; constructor; [|constructor]. now split.
  - destruct (isspace c) eqn:Hc.
    + destruct cur as [|a cur]; [now apply IH|].
      constructor; [now split | now apply IH].
    + apply IH, Forall_app. split; [exact Hcur | now constructor].
Qed.

Lemma split_words s : Forall word (split s).
Proof. apply split_from_words. constructor. Qed.

Lemma split_from_first_not_nil cur s : cur <> [] -> split_from cur s <> [].
Proof.
  revert cur. induction s as [|c s IH]; intros cur Hne; simpl.
  - now destruct cur.
  - destruct (isspace c); [now destruct cur|]. apply IH. now destruct cur.
Qed.

Lemma join_cons sep w ws : ws <> [] -> join sep (w :: ws) = w ++ sep ++ join sep ws.
Proof. now destruct ws. Qed.

(** Splitting undoes the joining of words with a space. *)
Lemma split_join ws : Forall word ws -> split (join [space] ws) = ws.
Proof.
  unfold split. induction 1 as [|w ws [Hne Hw] Hws IH]; [reflexivity|].
  destruct ws as [|w' ws].
  - simpl. pose proof (split_from_nonspace [] w [] Hw) as E.
    rewrite app_nil_r in E. rewrite E. now apply split_from_end.
  - rewrite join_cons by discriminate.
    rewrite split_from_nonspace by exact Hw.
    change ([space] ++ join [space] (w' :: ws)) with (space :: join [space] (w' :: ws)).
    rewrite split_from_space; [now rewrite IH | reflexivity | exact Hne].
Qed.

Lemma join_words_head ws :
  ws <> [] -> Forall word ws ->
  exists c rest, join [space] ws = c :: rest /\ nonspace c.
Proof.
  intros Hne Hws. destruct Hws as [|w ws [Hw Hall] Hws]; [now destruct Hne|].
  destruct w as [|c w]; [now destruct Hw|].
  inversion Hall; subst.
  destruct ws; simpl; eauto.
Qed.

Lemma join_words_last ws :
  ws <> [] -> Forall word ws ->
  exists pre c, join [space] ws = pre ++ [c] /\ nonspace c.
Proof.
  intros Hne Hws. induction Hws as [|w ws [Hw Hall] Hws IH]; [now destruct Hne|].
  destruct ws as [|w' ws].
  - simpl. destruct w as [|c w] using rev_ind; [now destruct Hw|].
    apply Forall_app in Hall as [_ Hc]. inversion Hc; subst. eauto.
  - destruct IH as (pre & c & Heq & Hc); [discriminate|].
    rewrite join_cons, Heq by discriminate.
    exists (w ++ [space] ++ pre), c. split; [|exact Hc].
    now rewrite <- !app_assoc.
Qed.

(** A space-joined list of words has nothing to strip. *)
Lemma strip_join ws : Forall word ws -> strip (join [space] ws) = join [space] ws.
Proof.
  intros Hws. destruct ws as [|w ws]; [reflexivity|]. unfold strip.
  destruct (join_words_head (w :: ws)) as (c & rest & Heq & Hc); [discriminate|exact Hws|].
  destruct (join_words_last (w :: ws)) as (pre & d & Heq' & Hd); [discriminate|exact Hws|].
  rewrite Heq, lstrip_nonspace by exact Hc.
  rewrite <- Heq, Heq'. now apply rstrip_snoc_nonspace.
Qed.

Lemma join_words_not_nil ws : ws <> [] -> Forall word ws -> join [space] ws <> [].
Proof.
  intros Hne Hws. destruct (join_words_head ws Hne Hws) as (c & rest & -> & _).
  discriminate.
Qed.

Lemma nl_is_space : isspace nl = true.
Proof. reflexivity. Qed.

Lemma join_no_nl ws : Forall word ws -> Forall (fun c => c <> nl) (join [space] ws).
Proof.
  assert (Hword : forall w, Forall nonspace w -> Forall (fun c => c <> nl) w).
  { intros w Hw. eapply Forall_impl; [exact Hw|]. intros c Hc ->.
    unfold nonspace in Hc. now rewrite nl_is_space in Hc. }
  induction 1 as [|w ws [_ Hw] Hws IH]; [constructor|].
  destruct ws as [|w' ws]; [now apply Hword|].
  rewrite join_cons by discriminate.
  apply Forall_app. split; [now apply Hword|].
  apply Forall_app. split; [|exact IH]. now repeat constructor.
Qed.

(** Without a newline there is no double newline to replace. *)
Lemma replace_no_nl s : Forall (fun c => c <> nl) s -> replace [nl; nl] [nl] s = s.
Proof.
  unfold replace. induction 1 as [|c s Hc _ IH]; [reflexivity|].
  cbn [replace_from startswith].
  destruct (N.eqb_spec nl c) as [<-|_]; [now destruct Hc|].
  cbn [andb]. now rewrite IH.
Qed.

Lemma split_lstrip s : split (lstrip s) = split s.
Proof.
  unfold split. induction s as [|c s IH]; [reflexivity|].
  simpl. destruct (isspace c) eqn:Hc; [exact IH|].
  simpl. now rewrite Hc.
Qed.

Lemma lstrip_collapse b s :
  lstrip (Spec.collapse_from b s) = Spec.collapse_from false (lstrip s).
Proof.
  revert b. induction s as [|c s IH]; intros b; [reflexivity|].
  simpl. destruct (isspace c) eqn:Hc.
  - destruct b; [apply IH|]. simpl. apply IH.
  - simpl. now rewrite Hc.
Qed.

(** Collapsing the runs of whitespace after a word that has begun, and
    stripping on the right, gives the words joined by single spaces. *)
Lemma rstrip_collapse s :
  (forall cur, word cur ->
     rstrip (cur ++ Spec.collapse_from false s) = join [space] (split_from cur s))
  /\ (forall cur, word cur ->
     rstrip (cur ++ space :: Spec.collapse_from true s)
     = join [space] (cur :: split_from [] s)).
Proof.
  induction s as [|c s [IH1 IH2]].
  - split; intros cur Hcur; cbn [Spec.collapse_from].
    + rewrite app_nil_r, split_from_end by now apply word_not_nil.
      now apply rstrip_word.
    + cbn [split_from join].
      rewrite rstrip_snoc_space by reflexivity. now apply rstrip_word.
  - split; intros cur Hcur; cbn [Spec.collapse_from]; destruct (isspace c) eqn:Hc.
    + rewrite split_from_space; [now apply IH2 | exact Hc | now apply word_not_nil].
    + cbn [split_from]. rewrite Hc.
      change (cur ++ c :: Spec.collapse_from false s)
        with (cur ++ [c] ++ Spec.collapse_from false s).
      rewrite app_assoc. apply IH1, word_snoc; [apply Hcur | exact Hc].
    + cbn [split_from]. rewrite Hc. now apply IH2.
    + cbn [split_from]. rewrite Hc.
      assert (Hc' : word [c]) by (split; [discriminate | now repeat constructor]).
      specialize (IH1 [c] Hc').
      rewrite join_cons by now apply split_from_first_not_nil.
      change (cur ++ space :: c :: Spec.collapse_from false s)
        with (cur ++ [space] ++ ([c] ++ Spec.collapse_from false s)).
      rewrite app_assoc, rstrip_app, IH1.
      * now rewrite <- app_assoc.
      * rewrite IH1. apply join_words_not_nil.
        -- now apply split_from_first_not_nil.
        -- apply split_from_words. now repeat constructor.
Qed.

(** Collapsing whitespace runs and trimming is joining the words with
    single spaces. *)
Lemma strip_collapse s :
  strip (Spec.collapse_from false s) = join [space] (split s).
Proof.
  unfold strip. rewrite lstrip_collapse, <- split_lstrip.
  destruct (lstrip s) as [|c t] eqn:Hs; [reflexivity|].
  assert (Hc : nonspace c).
  { clear -Hs. induction s as [|a s IH]; [discriminate|].
    simpl in Hs. destruct (isspace a) eqn:Ha; [now apply IH|].
    now inversion Hs; subst. }
  cbn [Spec.collapse_from split split_from]. rewrite Hc.
  apply (proj1 (rstrip_collapse t) [c]).
  split; [discriminate | now repeat constructor].
Qed.

(** The double newlines that are replaced are whitespace all the same: the
    replacement does not change the words. *)
Lemma split_from_replace n : forall s cur,
  (length s <= n)%nat ->
  split_from cur (replace [nl; nl] [nl] s) = split_from cur s.
Proof.
  unfold replace. induction n as [|n IH]; intros s cur Hlen.
  - destruct s; [reflexivity | cbn [length] in Hlen; lia].
  - destruct s as [|c s]; [reflexivity|]. cbn [length] in Hlen.
    assert (Hstep : split_from cur (c :: replace_from [nl; nl] [nl] 0 s)
                    = split_from cur (c :: s)).
    { cbn [split_from]. destruct (isspace c), cur; rewrite IH by lia; reflexivity. }
    cbn [replace_from startswith].
    destruct (N.eqb_spec nl c) as [<-|_]; [|exact Hstep].
    destruct s as [|d s]; [exact Hstep|].
    destruct (N.eqb_spec nl d) as [<-|_]; [|exact Hstep].
    cbn [andb length Nat.sub app replace_from split_from]. rewrite nl_is_space.
    cbn [length] in Hlen. destruct cur; rewrite IH by lia; reflexivity.
Qed.

Lemma split_replace s : split (replace [nl; nl] [nl] s) = split s.
Proof. apply (split_from_replace (length s)). lia. Qed.

End TextFacts.

(** ** Formatting *)

Section FormatFacts.

Import Format.

Context (ucd : unicodedata).
Variable format_field_ext :
  text -> text -> option char -> text -> gmap text text -> exception + text.

(** A field whose name is not among the keyword arguments raises: [KeyError],
    or [IndexError] when the name is empty or a number. *)
Lemma output_markup_missing kwargs field_name conversion format_spec :
  kwargs !! (fst (field_name_split field_name)) = None ->
  exists e, output_markup ucd format_field_ext kwargs field_name conversion format_spec = inl e.
Proof.
  unfold output_markup. destruct (field_name_split field_name) as [first rest].
  simpl. intros ->. destruct (forallb (isdecimal ucd) first); eauto.
Qed.

Lemma render_missing kwargs items ok out field_name conversion format_spec :
  Field field_name conversion format_spec ∈ items ->
  kwargs !! (fst (field_name_split field_name)) = None ->
  exists e, render ucd format_field_ext kwargs items ok out = inl e.
Proof.
  intros Hin Hnone. revert out.
  induction items as [|it items IH]; intros out; [now apply elem_of_nil in Hin|].
  apply elem_of_cons in Hin as [<-|Hin]; cbn [render].
  - destruct (output_markup_missing kwargs field_name conversion format_spec Hnone)
      as [e ->]. eauto.
  - destruct it as [c|fn cv sp]; [now apply IH|].
    destruct (output_markup _ _ _ fn cv sp); [eauto | now apply IH].
Qed.

(** Formatting a template that names a placeholder absent from the keyword
    arguments raises. *)
Lemma format_missing template kwargs name :
  name ∈ placeholders template -> kwargs !! name = None ->
  exists e, format ucd format_field_ext template kwargs = inl e.
Proof.
  unfold placeholders, format. destruct (parse template) as [items ok]. simpl.
  intros Hin Hnone. apply list_elem_of_omap in Hin as (it & Hit & Hname).
  destruct it as [c|fn cv sp]; [discriminate|]. injection Hname as <-.
  now apply (render_missing kwargs items ok [] fn cv sp).
Qed.

End FormatFacts.

(** ** TemplateLoader *)

Section TemplateLoaderFacts.

Import TemplateReader.

Implicit Types (self : TemplateLoader) (fs : gmap text node).

Lemma load_content_hit self fs template_path cached :
  template_cache self !! cache_key template_path = Some cached ->
  load_content self fs template_path = (cached, self).
Proof. unfold load_content. fold (cache_key template_path). now intros ->. Qed.

Lemma load_content_miss_loads self fs template_path content :
  template_cache self !! cache_key template_path = None ->
  fs !! template_path = Some (File content) ->
  endswith ext_md template_path || endswith ext_txt template_path = true ->
  load_content self fs template_path =
    (content,
     {| template_cache := <[cache_key template_path := content]> (template_cache self);
        template := template self |}).
Proof.
  unfold load_content, exists_. fold (cache_key template_path).
  now intros -> -> ->.
Qed.

(** [load_content] either leaves the cache alone or adds a key that was not
    there. *)
Lemma load_content_cache self fs template_path :
  template_cache (snd (load_content self fs template_path)) = template_cache self
  \/ exists content,
       template_cache self !! cache_key template_path = None
       /\ template_cache (snd (load_content self fs template_path))
          = <[cache_key template_path := content]> (template_cache self).
Proof.
  unfold load_content. fold (cache_key template_path).
  destruct (template_cache self !! cache_key template_path) eqn:Hc; [now left|].
  destruct (negb (exists_ fs template_path)); [now left|].
  destruct (negb _); [now left|].
  destruct (fs !! template_path) as [[content|]|]; [|now left..].
  right. now exists content.
Qed.

Lemma load_content_keeps self fs template_path k v :
  template_cache self !! k = Some v ->
  template_cache (snd (load_content self fs template_path)) !! k = Some v.
Proof.
  intros Hk. destruct (load_content_cache self fs template_path)
    as [->|(content & Hnone & ->)]; [exact Hk|].
  rewrite lookup_insert_ne; [exact Hk|]. intros <-. congruence.
Qed.

Lemma get_template_load self fs template_type :
  get_template self fs template_type =
    (flatten (fst (load_content self fs template_type)),
     snd (load_content self fs template_type)).
Proof. unfold get_template. now destruct (load_content self fs template_type). Qed.

Lemma fill_template_cases ucd ext self template data :
  match Format.format ucd ext template data with
  | inl _ => fill_template ucd ext self template data = (template, self)
  | inr filled =>
      fill_template ucd ext self template data =
        (filled, {| template_cache := template_cache self; template := Some filled |})
  end.
Proof.
  unfold fill_template. destruct (Format.format ucd ext template data) as [[]|]; reflexivity.
Qed.

Lemma perform_keeps ucd ext self c k v :
  template_cache self !! k = Some v ->
  template_cache (perform ucd ext self c) !! k = Some v.
Proof.
  intros Hk. destruct c as [fs path|template data|fs path]; cbn [perform].
  - now apply load_content_keeps.
  - pose proof (fill_template_cases ucd ext self template data) as H.
    destruct (Format.format ucd ext template data); now rewrite H.
  - rewrite get_template_load. now apply load_content_keeps.
Qed.

(** No sequence of calls removes or changes an entry of the cache. *)
Lemma run_keeps ucd ext calls : forall self k v,
  template_cache self !! k = Some v ->
  template_cache (run ucd ext self calls) !! k = Some v.
Proof.
  unfold run. induction calls as [|c calls IH]; intros self k v Hk; [exact Hk|].
  cbn [fold_left]. now apply IH, perform_keeps.
Qed.

(** The flattening of [get_template] yields words joined by single spaces. *)
Lemma flatten_words template :
  flatten template = join [space] (split (replace [nl; nl] [nl] template)).
Proof. unfold flatten. apply strip_join, split_words. Qed.

(** All told, flattening is splitting into words and joining them with
    single spaces. *)
Lemma flatten_join_split template : flatten template = join [space] (split template).
Proof. now rewrite flatten_words, split_replace. Qed.

Lemma flatten_spec template : flatten template = Spec.flatten template.
Proof. unfold Spec.flatten. now rewrite strip_collapse, flatten_words. Qed.

(** The test of the extension is on the end of the path, while the cache key
    is cut by [os.path.splitext]: for a file named [.md] the two disagree,
    [splitext] finds no extension and the file is loaded all the same. *)
Remark load_content_dotfile :
  snd (PosixPath.splitext (u "docs/.md")) = []
  /\ fst (load_content init {[ u "docs/.md" := File (u "text") ]} (u "docs/.md"))
     = u "text".
Proof. split; vm_compute; reflexivity. Qed.

End TemplateLoaderFacts.

(** ** The template loader: what the specification states *)

Section TemplateLoaderClaims.

Import TemplateReader.

(** C3. [load_content] answers from the cache whenever the key of the path
    (its file name without extension) is cached, whatever the file system and
    whatever the extension; so once a file has been loaded, any later call with
    a path of the same key, in any directory and on any file system (the file
    may be gone), after any calls in between, returns the content loaded first;
    and no sequence of calls removes or changes an entry of the cache. *)
Theorem load_content_cache_first (ucd : unicodedata)
    (ext : text -> text -> option char -> text -> gmap text text -> exception + text)
    (self : TemplateLoader) (fs : gmap text node) (template_path : text) :
  (forall cached,
     template_cache self !! cache_key template_path = Some cached ->
     load_content self fs template_path = (cached, self))
  /\ (forall content,
        template_cache self !! cache_key template_path = None ->
        fs !! template_path = Some (File content) ->
        endswith ext_md template_path || endswith ext_txt template_path = true ->
        fst (load_content self fs template_path) = content
        /\ forall calls fs' path',
             cache_key path' = cache_key template_path ->
             let later := run ucd ext (snd (load_content self fs template_path)) calls in
             load_content later fs' path' = (content, later))
  /\ (forall calls k v,
        template_cache self !! k = Some v ->
        template_cache (run ucd ext self calls) !! k = Some v).
Proof.
  split; [|split].
  - intros cached. apply load_content_hit.
  - intros content Hmiss Hfile Hext.
    rewrite (load_content_miss_loads self fs template_path content Hmiss Hfile Hext).
    split; [reflexivity|]. intros calls fs' path' Hkey later.
    apply load_content_hit. rewrite Hkey. apply run_keeps.
    cbn [snd template_cache]. apply lookup_insert_eq.
  - intros calls k v. apply run_keeps.
Qed.

(** C7. A path that ends neither in [.md] nor in [.txt], and whose key is not
    cached, loads as the empty string, whether or not the file exists, and the
    loader is left as it was. *)
Theorem load_content_rejects_extension (self : TemplateLoader) (fs : gmap text node)
    (template_path : text) :
  endswith ext_md template_path = false ->
  endswith ext_txt template_path = false ->
  template_cache self !! cache_key template_path = None ->
  load_content self fs template_path = ([], self).
Proof.
  intros Hmd Htxt Hmiss. unfold load_content. fold (cache_key template_path).
  rewrite Hmiss, Hmd, Htxt. now destruct (exists_ fs template_path).
Qed.

(** C4. When formatting fails, and so in particular when the template names a
    placeholder that the data lacks, [fill_template] returns the template it
    was given; ["Hello {name}"] comes back as it is for empty data, and filled
    as ["Hello World"] when the data maps [name] to [World]. *)
Theorem fill_template_falls_back (ucd : unicodedata)
    (ext : text -> text -> option char -> text -> gmap text text -> exception + text)
    (self : TemplateLoader) (template : text) (data : gmap text text) :
  (forall e,
     Format.format ucd ext template data = inl e ->
     fst (fill_template ucd ext self template data) = template)
  /\ (forall name,
        name ∈ Format.placeholders template -> data !! name = None ->
        fst (fill_template ucd ext self template data) = template)
  /\ fst (fill_template ucd ext self (u "Hello {name}") ∅) = u "Hello {name}"
  /\ fst (fill_template ucd ext self (u "Hello {name}") {[ u "name" := u "World" ]})
     = u "Hello World".
Proof.
  assert (Hfail : forall e, Format.format ucd ext template data = inl e ->
                    fst (fill_template ucd ext self template data) = template).
  { intros e He. pose proof (fill_template_cases ucd ext self template data) as H.
    rewrite He in H. now rewrite H. }
  split; [exact Hfail|]. split; [|split].
  - intros name Hin Hnone.
    destruct (format_missing ucd ext template data name Hin Hnone) as [e He].
    now apply (Hfail e).
  - vm_compute. reflexivity.
  - vm_compute. reflexivity.
Qed.

(** C10. [fill_template] leaves the cache as it is and its result does not
    depend on the loader it is called on; when formatting fails the loader
    is unchanged, and when it succeeds the only change is that the
    attribute [template] holds the filled text, which is also returned. *)
Theorem fill_template_frame (ucd : unicodedata)
    (ext : text -> text -> option char -> text -> gmap text text -> exception + text)
    (self : TemplateLoader) (template : text) (data : gmap text text) :
  template_cache (snd (fill_template ucd ext self template data)) = template_cache self
  /\ (forall other : TemplateLoader,
        fst (fill_template ucd ext other template data)
        = fst (fill_template ucd ext self template data))
  /\ (forall e,
        Format.format ucd ext template data = inl e ->
        snd (fill_template ucd ext self template data) = self)
  /\ (forall filled,
        Format.format ucd ext template data = inr filled ->
        fill_template ucd ext self template data
        = (filled, {| template_cache := template_cache self; template := Some filled |})).
Proof.
  pose proof (fill_template_cases ucd ext self template data) as H.
  split; [|split; [|split]].
  - destruct (Format.format ucd ext template data); now rewrite H.
  - intros other. pose proof (fill_template_cases ucd ext other template data) as H'.
    destruct (Format.format ucd ext template data); now rewrite H, H'.
  - intros e He. rewrite He in H. now rewrite H.
  - intros filled Hf. now rewrite Hf in H.
Qed.

(** C8. [get_template] returns the loaded content flattened: double newlines
    replaced by single ones in one pass, then every run of whitespace
    collapsed to one space, then trimmed; ["Line1\n\nLine2\n\nLine3"] becomes
    ["Line1 Line2 Line3"], and an empty load gives the empty string. *)
Theorem get_template_flattens (self : TemplateLoader) (fs : gmap text node)
    (template_type : text) :
  let content := fst (load_content self fs template_type) in
  get_template self fs template_type
  = (Spec.flatten content, snd (load_content self fs template_type))
  /\ (content = three_lines ->
      fst (get_template self fs template_type) = u "Line1 Line2 Line3")
  /\ (content = [] -> fst (get_template self fs template_type) = []).
Proof.
  cbv zeta. rewrite get_template_load. split; [|split].
  - now rewrite flatten_spec.
  - intros ->. reflexivity.
  - intros ->. reflexivity.
Qed.

(** C9. Flattening is idempotent: a flattened string flattens to itself,
    for the three steps as the code performs them and as the specification
    words them. *)
Theorem flatten_idempotent (template : text) :
  flatten (flatten template) = flatten template
  /\ Spec.flatten (Spec.flatten template) = Spec.flatten template.
Proof.
  rewrite <- !flatten_spec. apply and_wlog_l; [tauto|].
  rewrite (flatten_words template).
  set (ws := split (replace [nl; nl] [nl] template)).
  assert (Hws : Forall word ws) by apply split_words.
  unfold flatten.
  rewrite replace_no_nl by now apply join_no_nl.
  rewrite split_join by exact Hws.
  now apply strip_join.
Qed.

End TemplateLoaderClaims.

(** ** Searching *)

Section RegexFacts.

Import Regex PdfExtractor.

Context (ucd : unicodedata).

Lemma matches_at_app r pre s :
  matches_at ucd r (pre ++ s) (length pre) = matches_here ucd r (last pre) s.
Proof. unfold matches_at. now rewrite take_app_length, drop_app_length. Qed.

(** The scan stops at the first offset that matches, and only fails when no
    offset up to the end of the text matches. *)
Lemma search_from_spec r s : forall pre,
  match search_from ucd r (last pre) s (length pre) with
  | Some i =>
      (length pre <= i <= length (pre ++ s))%nat
      /\ matches_at ucd r (pre ++ s) i = true
      /\ forall j, (length pre <= j < i)%nat -> matches_at ucd r (pre ++ s) j = false
  | None =>
      forall j, (length pre <= j <= length (pre ++ s))%nat ->
                matches_at ucd r (pre ++ s) j = false
  end.
Proof.
  induction s as [|a s IH]; intros pre; cbn [search_from];
    destruct (matches_here ucd r (last pre) _) eqn:Hm.
  - rewrite length_app, matches_at_app. cbn [length]. repeat split; [lia..| exact Hm |].
    intros j Hj. lia.
  - intros j Hj. rewrite length_app in Hj. cbn [length] in Hj.
    replace j with (length pre) by lia. now rewrite matches_at_app.
  - rewrite length_app, matches_at_app. cbn [length]. repeat split; [lia..| exact Hm |].
    intros j Hj. lia.
  - specialize (IH (pre ++ [a])).
    rewrite last_snoc, length_app, <- app_assoc in IH. cbn [length app] in IH.
    replace (length pre + 1)%nat with (S (length pre)) in IH by lia.
    destruct (search_from ucd r (Some a) s (S (length pre))) as [i|];
      cbv beta iota in IH.
    + destruct IH as (Hi & Hat & Hbefore). repeat split; [lia.. | exact Hat |].
      intros j Hj. destruct (decide (j = length pre)) as [->|Hne].
      * now rewrite matches_at_app.
      * apply Hbefore. lia.
    + intros j Hj. destruct (decide (j = length pre)) as [->|Hne].
      * now rewrite matches_at_app.
      * apply IH. lia.
Qed.

(** [re.search] returns the leftmost offset at which the pattern matches. *)
Lemma search_leftmost r text i :
  search ucd r text = Some i ->
  (i <= length text)%nat
  /\ matches_at ucd r text i = true
  /\ forall j, (j < i)%nat -> matches_at ucd r text j = false.
Proof.
  intros Hs. pose proof (search_from_spec r text []) as H.
  cbn [last length app] in H. fold (search ucd r text) in H. rewrite Hs in H.
  destruct H as (Hi & Hat & Hbefore). repeat split; [lia | exact Hat |].
  intros j Hj. apply Hbefore. lia.
Qed.

Lemma search_none r text j :
  search ucd r text = None -> (j <= length text)%nat -> matches_at ucd r text j = false.
Proof.
  intros Hs Hj. pose proof (search_from_spec r text []) as H.
  cbn [last length app] in H. fold (search ucd r text) in H. rewrite Hs in H.
  apply H. lia.
Qed.

Example search_ignores_case_and_indent :
  search ucd pat_references (u "abc" ++ [nl] ++ u "  REFERENCES: x") = Some 3%nat.
Proof. vm_compute. reflexivity. Qed.

Example search_needs_line_start :
  search ucd pat_references (u "see References: x") = None.
Proof. vm_compute. reflexivity. Qed.

Example search_needs_delimiter :
  search ucd pat_works_cited (u "abc" ++ [nl] ++ u "Works cited") = None.
Proof. vm_compute. reflexivity. Qed.

Lemma foldr_min_init a b (l : list nat) :
  foldr Nat.min (Nat.min a b) l = Nat.min a (foldr Nat.min b l).
Proof. induction l as [|x l IH]; cbn [foldr]; [reflexivity|]. rewrite IH. lia. Qed.

(** The loop of [_ref_cleaner] computes the smallest of the match offsets. *)
Lemma ref_cleaner_boundary text :
  _ref_cleaner ucd text = strip (take (Spec.boundary ucd ref_patterns text) text).
Proof.
  unfold _ref_cleaner, Spec.boundary. do 2 f_equal.
  generalize (length text) as min_pos. generalize ref_patterns as patterns.
  induction patterns as [|p patterns IH]; intros min_pos; [reflexivity|].
  cbn [fold_left omap list_omap]. rewrite IH.
  destruct (search ucd p text) as [start|]; [|reflexivity].
  cbn [foldr]. rewrite <- foldr_min_init. f_equal.
  destruct (Nat.ltb_spec start min_pos); lia.
Qed.

Lemma boundary_le patterns text p i :
  p ∈ patterns -> search ucd p text = Some i ->
  (Spec.boundary ucd patterns text <= i)%nat.
Proof.
  unfold Spec.boundary. intros Hin Hs.
  induction patterns as [|q patterns IH]; [now apply elem_of_nil in Hin|].
  cbn [omap list_omap]. apply elem_of_cons in Hin as [<-|Hin].
  - rewrite Hs. cbn [foldr]. lia.
  - specialize (IH Hin). destruct (search ucd q text); cbn [foldr]; lia.
Qed.

Lemma boundary_attained patterns text :
  (exists p, p ∈ patterns /\ search ucd p text = Some (Spec.boundary ucd patterns text))
  \/ ((forall p, p ∈ patterns -> search ucd p text = None)
      /\ Spec.boundary ucd patterns text = length text).
Proof.
  unfold Spec.boundary. induction patterns as [|q patterns IH].
  - right. split; [|reflexivity]. intros p Hp. now apply elem_of_nil in Hp.
  - cbn [omap list_omap]. destruct (search ucd q text) as [i|] eqn:Hq; cbn [foldr].
    + left.
      destruct (le_lt_dec i (foldr Nat.min (length text)
                               (omap (fun p => search ucd p text) patterns))) as [Hle|Hlt].
      * exists q. split; [apply elem_of_cons; now left|].
        rewrite Hq. f_equal. lia.
      * destruct IH as [(p & Hp & Hs)|[_ Hlen]].
        -- exists p. split; [apply elem_of_cons; now right|]. rewrite Hs. f_equal. lia.
        -- apply search_leftmost in Hq as [Hi _]. lia.
    + destruct IH as [(p & Hp & Hs)|[Hnone Hlen]].
      * left. exists p. split; [apply elem_of_cons; now right | exact Hs].
      * right. split; [|exact Hlen]. intros p Hp.
        apply elem_of_cons in Hp as [->|Hp]; [exact Hq | now apply Hnone].
Qed.

Lemma ref_cleaner_no_match text :
  (forall p, p ∈ ref_patterns -> search ucd p text = None) ->
  _ref_cleaner ucd text = strip text.
Proof.
  intros Hnone. rewrite ref_cleaner_boundary.
  destruct (boundary_attained ref_patterns text) as [(p & Hp & Hs)|[_ ->]].
  - rewrite Hnone in Hs by exact Hp. discriminate.
  - now rewrite firstn_all.
Qed.

End RegexFacts.

(** ** Extraction *)

Section ExtractorFacts.

Import Regex PdfExtractor.

Context (ucd : unicodedata).
Variable pymupdf : text -> exception + document.

(** A document either yields the text of every page, or has a first page
    whose text extraction raises. *)
Lemma document_cases (doc : document) :
  (exists ts, doc = map inr ts)
  \/ (exists ts e rest, doc = map inr ts ++ inl e :: rest).
Proof.
  induction doc as [|[e|t] doc IH].
  - left. now exists [].
  - right. now exists [], e, doc.
  - destruct IH as [(ts & ->)|(ts & e & rest & ->)].
    + left. now exists (t :: ts).
    + right. now exists (t :: ts), e, rest.
Qed.

Lemma page_texts_ok (ts : list text) handles :
  page_texts (map inr ts) handles = (inr ts, handles).
Proof.
  induction ts as [|t ts IH]; [reflexivity|].
  cbn [map page_texts]. unfold mbind, M_bind. now rewrite IH.
Qed.

Lemma page_texts_raises (ts : list text) e rest handles :
  page_texts (map inr ts ++ inl e :: rest) handles = (inl e, handles).
Proof.
  induction ts as [|t ts IH]; [reflexivity|].
  cbn [map app page_texts]. unfold mbind, M_bind. now rewrite IH.
Qed.

(** The three ways through [extract_content]. *)
Lemma extract_content_open_fails file_path remove_refs handles e :
  pymupdf file_path = inl e ->
  extract_content ucd pymupdf file_path remove_refs handles = (inl e, handles).
Proof.
  intros Hopen. unfold extract_content, try_except, mbind, M_bind, pymupdf_open.
  now rewrite Hopen.
Qed.

Lemma extract_content_ok file_path remove_refs handles ts :
  pymupdf file_path = inr (map inr ts) ->
  extract_content ucd pymupdf file_path remove_refs handles =
    (inr (let normalized_content := normalize_NFKD ucd (join [space] ts) in
          if remove_refs then _ref_cleaner ucd normalized_content
          else normalized_content),
     handles).
Proof.
  intros Hopen. unfold extract_content, try_except, mbind, M_bind, pymupdf_open.
  rewrite Hopen, page_texts_ok. reflexivity.
Qed.

Lemma extract_content_page_raises file_path remove_refs handles ts e rest :
  pymupdf file_path = inr (map inr ts ++ inl e :: rest) ->
  extract_content ucd pymupdf file_path remove_refs handles = (inl e, S handles).
Proof.
  intros Hopen. unfold extract_content, try_except, mbind, M_bind, pymupdf_open.
  rewrite Hopen, page_texts_raises. reflexivity.
Qed.

(** Whether [extract_content] returns, and with how many handles open, does
    not depend on [remove_refs]. *)
Lemma extract_content_returns file_path handles t handles' :
  extract_content ucd pymupdf file_path false handles = (inr t, handles') ->
  exists ts,
    pymupdf file_path = inr (map inr ts)
    /\ t = normalize_NFKD ucd (join [space] ts) /\ handles' = handles.
Proof.
  intros Hres. destruct (pymupdf file_path) as [e|doc] eqn:Hopen.
  - rewrite (extract_content_open_fails _ _ _ e Hopen) in Hres. discriminate.
  - destruct (document_cases doc) as [(ts & ->)|(ts & e & rest & ->)].
    + rewrite (extract_content_ok _ _ _ ts Hopen) in Hres.
      injection Hres as <- <-. now exists ts.
    + rewrite (extract_content_page_raises _ _ _ ts e rest Hopen) in Hres.
      discriminate.
Qed.

End ExtractorFacts.

(** ** The extractor: what the specification states *)

Section ExtractorClaims.

Import Regex PdfExtractor.

(** C1. The handle is not closed on every exit path.  For a document that
    opens and whose second page fails to yield its text, [extract_content]
    raises with the handle still open: one more handle than before the
    call. *)
Theorem extract_content_leaves_handle_open :
  extract_content ascii_tables
    (fun _ => inr [inr (u "First page."); inl OtherException])
    (u "paper.pdf") true 0%nat
  = (inl OtherException, 1%nat).
Proof. reflexivity. Qed.

(** C2, amended. [_ref_cleaner] truncates the text at the smallest of the
    offsets at which the four patterns first match (the first of them matching
    [Reference] as well as [References]) and trims the result: each search
    returns the leftmost offset where its pattern matches; the cut is at no
    later offset than any of them, and is one of them unless none matches, in
    which case the whole text is kept; with [Works cited] first matching at
    offset 10 and [Bibliography] at offset 50, and no other match, the cut
    is at offset 10. *)
Theorem ref_cleaner_cuts_at_earliest_header (ucd : unicodedata) (text : Text.text) :
  let cut := Spec.boundary ucd ref_patterns text in
  _ref_cleaner ucd text = strip (take cut text)
  /\ (forall p i,
        search ucd p text = Some i ->
        (i <= length text)%nat
        /\ matches_at ucd p text i = true
        /\ forall j, (j < i)%nat -> matches_at ucd p text j = false)
  /\ (forall p i, p ∈ ref_patterns -> search ucd p text = Some i -> (cut <= i)%nat)
  /\ ((exists p, p ∈ ref_patterns /\ search ucd p text = Some cut)
      \/ ((forall p, p ∈ ref_patterns -> search ucd p text = None)
          /\ cut = length text /\ _ref_cleaner ucd text = strip text))
  /\ (search ucd pat_works_cited text = Some 10%nat ->
      search ucd pat_bibliography text = Some 50%nat ->
      search ucd pat_references text = None ->
      search ucd pat_literature_cited text = None ->
      _ref_cleaner ucd text = strip (take 10 text)).
Proof.
  cbv zeta. split; [apply ref_cleaner_boundary|].
  split; [intros p i; apply search_leftmost|].
  split; [intros p i; apply boundary_le|]. split.
  - destruct (boundary_attained ucd ref_patterns text) as [H|[Hnone Hlen]]; [now left|].
    right. repeat split; [exact Hnone | exact Hlen | now apply ref_cleaner_no_match].
  - intros Hw Hb Hr Hl. rewrite ref_cleaner_boundary.
    unfold Spec.boundary, ref_patterns. cbn [omap list_omap].
    rewrite Hw, Hb, Hr, Hl. cbn [foldr].
    pose proof (search_leftmost ucd _ _ _ Hb) as [Hlen _].
    do 2 f_equal. lia.
Qed.

(** C2, as stated, fails: in ["Intro\nReference: x"] none of the headers
    [References], [Bibliography], [Literature cited], [Works cited] occurs, and
    yet the text is cut, at the line [Reference:]. *)
Lemma ref_cleaner_cuts_at_singular_reference :
  Forall (fun p => search ascii_tables p singular_header = None) Spec.header_patterns
  /\ _ref_cleaner ascii_tables singular_header = u "Intro"
  /\ _ref_cleaner ascii_tables singular_header <> strip singular_header
  /\ _ref_cleaner ascii_tables singular_header
     <> Spec.ref_cleaner ascii_tables singular_header.
Proof.
  split; [repeat constructor; vm_compute; reflexivity|].
  split; [vm_compute; reflexivity|].
  split; vm_compute; discriminate.
Qed.

(** C5. With [remove_refs] false, a document whose pages yield the texts
    [ts] extracts to the NFKD normal form of the texts joined by single
    spaces, and to nothing less: no character of the normal form, combining
    marks included, is taken out. *)
Theorem extract_content_is_nfkd_of_joined_pages (ucd : unicodedata)
    (pymupdf : text -> exception + document) (file_path : text)
    (ts : list text) (handles : nat) :
  pymupdf file_path = inr (map inr ts) ->
  extract_content ucd pymupdf file_path false handles
  = (inr (normalize_NFKD ucd (join [space] ts)), handles).
Proof. intros Hopen. now rewrite (extract_content_ok ucd pymupdf _ _ _ ts Hopen). Qed.

(** C6, amended. When none of the four patterns of the code (the first of
    them matching [Reference] as well as [References]) matches the text that
    [extract_content] returns without reference removal, it returns that text
    trimmed with reference removal. *)
Theorem extract_content_without_headers (ucd : unicodedata)
    (pymupdf : text -> exception + document) (file_path : text)
    (handles handles' : nat) (t : text) :
  extract_content ucd pymupdf file_path false handles = (inr t, handles') ->
  (forall p, p ∈ ref_patterns -> search ucd p t = None) ->
  extract_content ucd pymupdf file_path true handles = (inr (strip t), handles').
Proof.
  intros Hres Hnone.
  apply extract_content_returns in Hres as (ts & Hopen & -> & ->).
  rewrite (extract_content_ok ucd pymupdf _ _ _ ts Hopen). cbv zeta.
  now rewrite ref_cleaner_no_match.
Qed.

(** C6, as stated, fails: the one page of the document reads
    ["Intro\nReference: x"], in which none of the headers [References],
    [Bibliography], [Literature cited], [Works cited] occurs; without reference
    removal the page comes back whole, with reference removal only ["Intro"]
    does, which is not the whole page trimmed. *)
Lemma extract_content_cut_at_singular_reference :
  extract_content ascii_tables (fun _ => inr [inr singular_header]) (u "paper.pdf")
    false 0%nat
  = (inr singular_header, 0%nat)
  /\ Forall (fun p => search ascii_tables p singular_header = None) Spec.header_patterns
  /\ extract_content ascii_tables (fun _ => inr [inr singular_header]) (u "paper.pdf")
       true 0%nat
     = (inr (u "Intro"), 0%nat)
  /\ extract_content ascii_tables (fun _ => inr [inr singular_header]) (u "paper.pdf")
       true 0%nat
     <> (inr (strip singular_header), 0%nat).
Proof.
  split; [vm_compute; reflexivity|].
  split; [repeat constructor; vm_compute; reflexivity|].
  split; [vm_compute; reflexivity|].
  vm_compute. discriminate.
Qed.

End ExtractorClaims.

(** ** The statements at work on concrete inputs *)

Section Instances.

Import Regex PdfExtractor TemplateReader.

(** C3 at work: [a/x.md] is loaded; afterwards, and after a fill and the
    load of another template, [b/x.md] on a file system that holds another
    text there and no longer holds [a/x.md] loads as the text of [a/x.md], and
    so does [a/x.md] itself. *)
Lemma load_content_cache_first_witness :
  let fs : gmap text node := {[ u "a/x.md" := File (u "first") ]} in
  let fs' : gmap text node :=
    {[ u "b/x.md" := File (u "second"); u "b/y.txt" := File (u "other") ]} in
  let calls := [FillTemplate (u "Hello {name}") ∅; GetTemplate fs' (u "b/y.txt")] in
  let later :=
    run ascii_tables bare_fields_only (snd (load_content init fs (u "a/x.md"))) calls in
  template_cache init !! cache_key (u "a/x.md") = None
  /\ fs !! u "a/x.md" = Some (File (u "first"))
  /\ endswith ext_md (u "a/x.md") || endswith ext_txt (u "a/x.md") = true
  /\ cache_key (u "b/x.md") = cache_key (u "a/x.md")
  /\ fst (load_content init fs (u "a/x.md")) = u "first"
  /\ load_content later fs' (u "b/x.md") = (u "first", later)
  /\ load_content later fs' (u "a/x.md") = (u "first", later).
Proof.
  cbv zeta.
  assert (H1 : template_cache init !! cache_key (u "a/x.md") = None)
    by (vm_compute; reflexivity).
  assert (H2 : ({[ u "a/x.md" := File (u "first") ]} : gmap text node) !! u "a/x.md"
               = Some (File (u "first"))) by (vm_compute; reflexivity).
  assert (H3 : endswith ext_md (u "a/x.md") || endswith ext_txt (u "a/x.md") = true)
    by (vm_compute; reflexivity).
  assert (H4 : cache_key (u "b/x.md") = cache_key (u "a/x.md"))
    by (vm_compute; reflexivity).
  destruct (proj1 (proj2 (load_content_cache_first ascii_tables bare_fields_only init
                            {[ u "a/x.md" := File (u "first") ]} (u "a/x.md")))
              (u "first") H1 H2 H3) as [Hfirst Hlater].
  exact (conj H1 (conj H2 (conj H3 (conj H4 (conj Hfirst
           (conj (Hlater _ _ _ H4) (Hlater _ _ _ eq_refl))))))).
Defined.

(** C7 at work: [notes.pdf] loads as the empty string whether the file is
    there or not. *)
Lemma load_content_rejects_extension_witness :
  endswith ext_md (u "notes.pdf") = false
  /\ endswith ext_txt (u "notes.pdf") = false
  /\ template_cache init !! cache_key (u "notes.pdf") = None
  /\ load_content init {[ u "notes.pdf" := File (u "text") ]} (u "notes.pdf") = ([], init)
  /\ load_content init ∅ (u "notes.pdf") = ([], init).
Proof.
  assert (H1 : endswith ext_md (u "notes.pdf") = false) by (vm_compute; reflexivity).
  assert (H2 : endswith ext_txt (u "notes.pdf") = false) by (vm_compute; reflexivity).
  assert (H3 : template_cache init !! cache_key (u "notes.pdf") = None)
    by (vm_compute; reflexivity).
  exact (conj H1 (conj H2 (conj H3 (conj
           (load_content_rejects_extension init _ (u "notes.pdf") H1 H2 H3)
           (load_content_rejects_extension init ∅ (u "notes.pdf") H1 H2 H3))))).
Defined.

(** C4 at work: one placeholder of two is missing, and the template comes
    back whole. *)
Lemma fill_template_falls_back_witness :
  let template := u "Dear {who}, {msg}" in
  let data : gmap text text := {[ u "who" := u "Ada" ]} in
  u "msg" ∈ Format.placeholders template
  /\ data !! u "msg" = None
  /\ fst (fill_template ascii_tables bare_fields_only init template data) = template.
Proof.
  cbv zeta.
  assert (H1 : u "msg" ∈ Format.placeholders (u "Dear {who}, {msg}")).
  { apply list_elem_of_In. vm_compute. right. left. reflexivity. }
  assert (H2 : ({[ u "who" := u "Ada" ]} : gmap text text) !! u "msg" = None)
    by (vm_compute; reflexivity).
  exact (conj H1 (conj H2
           (proj1 (proj2 (fill_template_falls_back ascii_tables bare_fields_only init
                            (u "Dear {who}, {msg}") {[ u "who" := u "Ada" ]}))
              (u "msg") H1 H2))).
Defined.

(** C10 at work: a successful fill stores the result in [template] and keeps
    the cache; a failed one changes nothing. *)
Lemma fill_template_frame_witness :
  let self := snd (load_content init {[ u "a/x.md" := File (u "first") ]} (u "a/x.md")) in
  Format.format ascii_tables bare_fields_only (u "Hello {name}") {[ u "name" := u "World" ]}
  = inr (u "Hello World")
  /\ fill_template ascii_tables bare_fields_only self (u "Hello {name}")
       {[ u "name" := u "World" ]}
     = (u "Hello World",
        {| template_cache := template_cache self; template := Some (u "Hello World") |})
  /\ Format.format ascii_tables bare_fields_only (u "Hello {name}") ∅
     = inl (KeyError (u "name"))
  /\ snd (fill_template ascii_tables bare_fields_only self (u "Hello {name}") ∅) = self.
Proof.
  cbv zeta.
  assert (H1 : Format.format ascii_tables bare_fields_only (u "Hello {name}")
                 {[ u "name" := u "World" ]} = inr (u "Hello World"))
    by (vm_compute; reflexivity).
  assert (H2 : Format.format ascii_tables bare_fields_only (u "Hello {name}") ∅
               = inl (KeyError (u "name"))) by (vm_compute; reflexivity).
  exact (conj H1 (conj
           (proj2 (proj2 (proj2 (fill_template_frame ascii_tables bare_fields_only _ _ _)))
              _ H1)
           (conj H2
              (proj1 (proj2 (proj2
                 (fill_template_frame ascii_tables bare_fields_only _ _ _))) _ H2)))).
Defined.

(** C8 at work on a file that holds ["Line1\n\nLine2\n\nLine3"]. *)
Lemma get_template_flattens_witness :
  let fs : gmap text node := {[ u "prompt.md" := File three_lines ]} in
  fst (load_content init fs (u "prompt.md")) = three_lines
  /\ fst (get_template init fs (u "prompt.md")) = u "Line1 Line2 Line3".
Proof.
  cbv zeta.
  assert (H1 : fst (load_content init {[ u "prompt.md" := File three_lines ]}
                      (u "prompt.md")) = three_lines) by (vm_compute; reflexivity).
  split; [exact H1|].
  exact (proj1 (proj2 (get_template_flattens init _ (u "prompt.md"))) H1).
Defined.

(** C2 at work: [Works cited] at offset 10, [Bibliography] at offset 50; what
    is kept is ["Body text."]. *)
Lemma ref_cleaner_cuts_at_earliest_header_witness :
  search ascii_tables pat_works_cited two_headers = Some 10%nat
  /\ search ascii_tables pat_bibliography two_headers = Some 50%nat
  /\ search ascii_tables pat_references two_headers = None
  /\ search ascii_tables pat_literature_cited two_headers = None
  /\ _ref_cleaner ascii_tables two_headers = strip (take 10 two_headers)
  /\ strip (take 10 two_headers) = u "Body text.".
Proof.
  assert (H1 : search ascii_tables pat_works_cited two_headers = Some 10%nat)
    by (vm_compute; reflexivity).
  assert (H2 : search ascii_tables pat_bibliography two_headers = Some 50%nat)
    by (vm_compute; reflexivity).
  assert (H3 : search ascii_tables pat_references two_headers = None)
    by (vm_compute; reflexivity).
  assert (H4 : search ascii_tables pat_literature_cited two_headers = None)
    by (vm_compute; reflexivity).
  assert (H5 : strip (take 10 two_headers) = u "Body text.")
    by (vm_compute; reflexivity).
  exact (conj H1 (conj H2 (conj H3 (conj H4 (conj
           (proj2 (proj2 (proj2 (proj2
              (ref_cleaner_cuts_at_earliest_header ascii_tables two_headers))))
              H1 H2 H3 H4)
           H5))))).
Defined.

(** C5 at work: the accented letter of the first page comes out as the letter
    e followed by the combining accent. *)
Lemma extract_content_is_nfkd_of_joined_pages_witness :
  let ts := [u "caf" ++ [233]; u "menu"] in
  let pymupdf : text -> exception + document := fun _ => inr (map inr ts) in
  pymupdf (u "menu.pdf") = inr (map inr ts)
  /\ extract_content decomposing_tables pymupdf (u "menu.pdf") false 0%nat
     = (inr (u "cafe" ++ [769] ++ u " menu"), 0%nat).
Proof.
  cbv zeta. split; [reflexivity|].
  exact (extract_content_is_nfkd_of_joined_pages decomposing_tables
           (fun _ => inr (map inr [u "caf" ++ [233]; u "menu"])) (u "menu.pdf")
           [u "caf" ++ [233]; u "menu"] 0%nat eq_refl).
Defined.

(** C6 at work on a document without any of the headers. *)
Lemma extract_content_without_headers_witness :
  let pymupdf : text -> exception + document :=
    fun _ => inr [inr (u " Intro text"); inr (u "more text ")] in
  let t := u " Intro text more text " in
  extract_content ascii_tables pymupdf (u "paper.pdf") false 0%nat = (inr t, 0%nat)
  /\ Forall (fun p => search ascii_tables p t = None) ref_patterns
  /\ extract_content ascii_tables pymupdf (u "paper.pdf") true 0%nat
     = (inr (u "Intro text more text"), 0%nat).
Proof.
  cbv zeta.
  assert (H1 : extract_content ascii_tables
                 (fun _ => inr [inr (u " Intro text"); inr (u "more text ")])
                 (u "paper.pdf") false 0%nat = (inr (u " Intro text more text "), 0%nat))
    by (vm_compute; reflexivity).
  assert (H2 : Forall (fun p => search ascii_tables p (u " Intro text more text ") = None)
                 ref_patterns) by (repeat constructor; vm_compute; reflexivity).
  exact (conj H1 (conj H2
           (extract_content_without_headers ascii_tables _ (u "paper.pdf") 0%nat 0%nat _ H1
              (proj1 (Forall_forall _ _) H2)))).
Defined.

End Instances.

(** * Further properties of the code *)

(** ** The loader and its cache *)

Section LoaderMore.

Import TemplateReader.

Implicit Types (self : TemplateLoader) (fs : gmap text node).

(** On a cache miss, what [load_content] adds to the cache is the content of
    the file at the path, cut to its key; anything else leaves the loader
    alone and returns the empty string. *)
Lemma load_content_miss self fs template_path :
  template_cache self !! cache_key template_path = None ->
  (exists content,
     fs !! template_path = Some (File content)
     /\ endswith ext_md template_path || endswith ext_txt template_path = true
     /\ load_content self fs template_path
        = (content,
           {| template_cache := <[cache_key template_path := content]> (template_cache self);
              template := template self |}))
  \/ ((forall content, fs !! template_path = Some (File content) ->
         endswith ext_md template_path || endswith ext_txt template_path = false)
      /\ load_content self fs template_path = ([], self)).
Proof.
  intros Hmiss. unfold load_content, exists_. fold (cache_key template_path).
  rewrite Hmiss.
  destruct (fs !! template_path) as [[content|]|] eqn:Hfs; cbn [negb].
  - destruct (endswith ext_md template_path || endswith ext_txt template_path) eqn:Hext;
      cbn [negb].
    + left. now exists content.
    + right. split; [|reflexivity]. intros c Hc. reflexivity.
  - right. split; [discriminate|].
    now destruct (endswith ext_md template_path || endswith ext_txt template_path).
  - right. split; [discriminate | reflexivity].
Qed.

(** X1. A load that fails because the file is missing or cannot be read is not
    remembered: the loader is as before, and once a readable file is there the
    same call loads it. *)
Theorem load_content_failure_not_cached self fs fs' template_path content :
  template_cache self !! cache_key template_path = None ->
  fs !! template_path = None \/ fs !! template_path = Some Unreadable ->
  fs' !! template_path = Some (File content) ->
  endswith ext_md template_path || endswith ext_txt template_path = true ->
  load_content self fs template_path = ([], self)
  /\ fst (load_content (snd (load_content self fs template_path)) fs' template_path)
     = content.
Proof.
  intros Hmiss Hfs Hfs' Hext.
  assert (Hfail : load_content self fs template_path = ([], self)).
  { destruct (load_content_miss self fs template_path Hmiss)
      as [(c & Hc & _)|[_ H]]; [|exact H].
    destruct Hfs as [Hfs|Hfs]; rewrite Hfs in Hc; discriminate. }
  split; [exact Hfail|]. rewrite Hfail. cbn [snd].
  now rewrite (load_content_miss_loads self fs' template_path content Hmiss Hfs' Hext).
Qed.

(** X2. On a file system that stays as it is, a second [load_content] of the
    same path returns what the first returned and changes nothing. *)
Theorem load_content_twice self fs template_path :
  load_content (snd (load_content self fs template_path)) fs template_path
  = (fst (load_content self fs template_path),
     snd (load_content self fs template_path)).
Proof.
  destruct (template_cache self !! cache_key template_path) as [cached|] eqn:Hc.
  - rewrite (load_content_hit self fs template_path cached Hc). cbn [fst snd].
    now apply load_content_hit.
  - destruct (load_content_miss self fs template_path Hc)
      as [(content & _ & _ & Heq)|[_ Heq]]; rewrite Heq; cbn [fst snd].
    + apply load_content_hit. cbn [template_cache]. apply lookup_insert_eq.
    + exact Heq.
Qed.

Lemma load_content_origin self fs template_path k v :
  template_cache (snd (load_content self fs template_path)) !! k = Some v ->
  template_cache self !! k = Some v
  \/ (cache_key template_path = k
      /\ fs !! template_path = Some (File v)
      /\ endswith ext_md template_path || endswith ext_txt template_path = true).
Proof.
  destruct (template_cache self !! cache_key template_path) as [cached|] eqn:Hc.
  - rewrite (load_content_hit self fs template_path cached Hc). now left.
  - destruct (load_content_miss self fs template_path Hc)
      as [(content & Hfile & Hext & ->)|[_ ->]]; [|now left].
    cbn [snd template_cache]. rewrite lookup_insert.
    case_decide as Hk; [|now left].
    intros [= <-]. now right.
Qed.

Lemma perform_origin ucd ext self c k v :
  template_cache (perform ucd ext self c) !! k = Some v ->
  template_cache self !! k = Some v
  \/ exists fs template_path,
       (c = LoadContent fs template_path \/ c = GetTemplate fs template_path)
       /\ cache_key template_path = k
       /\ fs !! template_path = Some (File v)
       /\ endswith ext_md template_path || endswith ext_txt template_path = true.
Proof.
  destruct c as [fs path|template data|fs path]; cbn [perform].
  - intros H. apply load_content_origin in H as [H|H]; [now left|].
    right. exists fs, path. split; [now left | exact H].
  - pose proof (fill_template_cases ucd ext self template data) as H.
    destruct (Format.format ucd ext template data); rewrite H; now left.
  - rewrite get_template_load. cbn [snd].
    intros H. apply load_content_origin in H as [H|H]; [now left|].
    right. exists fs, path. split; [now right | exact H].
Qed.

Lemma run_origin ucd ext calls : forall self k v,
  template_cache (run ucd ext self calls) !! k = Some v ->
  template_cache self !! k = Some v
  \/ exists fs template_path,
       (LoadContent fs template_path ∈ calls \/ GetTemplate fs template_path ∈ calls)
       /\ cache_key template_path = k
       /\ fs !! template_path = Some (File v)
       /\ endswith ext_md template_path || endswith ext_txt template_path = true.
Proof.
  unfold run. induction calls as [|c calls IH]; intros self k v Hk; [now left|].
  cbn [fold_left] in Hk. apply IH in Hk as [Hk|(fs & path & Hin & H)].
  - apply perform_origin in Hk as [Hk|(fs & path & Hc & H)]; [now left|].
    right. exists fs, path. split; [|exact H].
    destruct Hc as [-> | ->]; [left|right]; apply elem_of_cons; now left.
  - right. exists fs, path. split; [|exact H].
    destruct Hin as [Hin|Hin]; [left|right]; apply elem_of_cons; now right.
Qed.

(** X3. Whatever is called on a fresh loader, every entry of its cache is the
    full content of a file that one of the calls loaded: a readable file whose
    path ends in [.md] or [.txt], stored under the key of that path. *)
Theorem cache_holds_file_contents (ucd : unicodedata)
    (ext : text -> text -> option char -> text -> gmap text text -> exception + text)
    (calls : list call) (k v : text) :
  template_cache (run ucd ext init calls) !! k = Some v ->
  exists fs template_path,
    (LoadContent fs template_path ∈ calls \/ GetTemplate fs template_path ∈ calls)
    /\ cache_key template_path = k
    /\ fs !! template_path = Some (File v)
    /\ endswith ext_md template_path || endswith ext_txt template_path = true.
Proof.
  intros Hk. apply run_origin in Hk as [Hk|H]; [|exact H].
  cbn [init template_cache] in Hk. now rewrite lookup_empty in Hk.
Qed.

End LoaderMore.

(** ** Paths and cache keys *)

Section PathsMore.

Import PosixPath TemplateReader.

Implicit Types (s p : text) (c : char).

Lemma rfind_absent c s : Forall (fun a => a <> c) s -> rfind c s = (-1)%Z.
Proof.
  induction 1 as [|a s Ha _ IH]; [reflexivity|].
  cbn [rfind]. rewrite IH. cbn. destruct (N.eqb_spec a c); [contradiction | reflexivity].
Qed.

Lemma rfind_lower c s : (-1 <= rfind c s)%Z.
Proof.
  induction s as [|a s IH]; cbn [rfind]; [lia|].
  destruct (Z.leb_spec 0 (rfind c s)); [lia|]. destruct (a =? c); lia.
Qed.

Lemma rfind_app_present c s t :
  (0 <= rfind c t)%Z -> rfind c (s ++ t) = (Z.of_nat (length s) + rfind c t)%Z.
Proof.
  intros Ht. induction s as [|a s IH]; [cbn; lia|].
  cbn [app rfind length]. rewrite IH.
  destruct (Z.leb_spec 0 (Z.of_nat (length s) + rfind c t)); lia.
Qed.

Lemma rfind_app_absent c s t :
  Forall (fun a => a <> c) t -> rfind c (s ++ t) = rfind c s.
Proof.
  intros Ht. induction s as [|a s IH]; [now apply rfind_absent|].
  cbn [app rfind]. now rewrite IH.
Qed.

Lemma rfind_head c t : Forall (fun a => a <> c) t -> rfind c (c :: t) = 0%Z.
Proof.
  intros Ht. cbn [rfind]. rewrite (rfind_absent c t Ht). cbn.
  now rewrite N.eqb_refl.
Qed.

(** The last separator decides the base name. *)
Lemma basename_after_sep dir name :
  Forall (fun a => a <> sep) name -> basename (dir ++ [sep] ++ name) = name.
Proof.
  intros Hname. unfold basename, from_index.
  rewrite rfind_app_present; cbn [app]; rewrite (rfind_head sep name Hname); [|lia].
  replace (Z.to_nat (Z.of_nat (length dir) + 0 + 1)) with (length (dir ++ [sep]))
    by (rewrite length_app; cbn [length]; lia).
  change (dir ++ sep :: name) with (dir ++ [sep] ++ name).
  rewrite app_assoc. apply drop_app_length.
Qed.

Lemma basename_plain name :
  Forall (fun a => a <> sep) name -> basename name = name.
Proof.
  intros Hname. unfold basename, from_index. now rewrite (rfind_absent sep name Hname).
Qed.

Lemma non_dot_before_spec pre stem rest :
  non_dot_before (pre ++ stem ++ rest) (length pre) (length stem)
  = existsb (fun a => negb (a =? extsep)) stem.
Proof.
  revert pre. induction stem as [|a stem IH]; intros pre; [reflexivity|].
  cbn [length non_dot_before existsb].
  rewrite lookup_app_r, Nat.sub_diag by lia. cbn [app lookup list_lookup].
  destruct (a =? extsep); [|reflexivity]. cbn [negb orb].
  specialize (IH (pre ++ [a])). rewrite length_app, <- app_assoc in IH.
  cbn [length app] in IH. now replace (length pre + 1)%nat with (S (length pre)) in IH by lia.
Qed.

(** [splitext] cuts a file name before its last dot, provided something other
    than dots comes before it. *)
Lemma splitext_stem stem e :
  Forall (fun a => a <> sep) stem ->
  existsb (fun a => negb (a =? extsep)) stem = true ->
  Forall (fun a => a <> sep) e -> Forall (fun a => a <> extsep) e ->
  splitext (stem ++ [extsep] ++ e) = (stem, extsep :: e).
Proof.
  intros Hstem Hnd Hes Hed. unfold splitext.
  assert (Hsep : rfind sep (stem ++ [extsep] ++ e) = (-1)%Z).
  { apply rfind_absent, Forall_app. split; [exact Hstem|].
    apply Forall_app. split; [|exact Hes]. repeat constructor. discriminate. }
  assert (Hdot : rfind extsep (stem ++ [extsep] ++ e) = Z.of_nat (length stem)).
  { rewrite rfind_app_present; cbn [app]; rewrite (rfind_head extsep e Hed); lia. }
  rewrite Hsep, Hdot.
  destruct (Z.gtb_spec (Z.of_nat (length stem)) (-1)); [|lia].
  replace (Z.to_nat (Z.of_nat (length stem) - (-1 + 1))) with (length stem) by lia.
  pose proof (non_dot_before_spec [] stem ([extsep] ++ e)) as Hscan.
  cbn [app length] in Hscan. change (Z.to_nat (-1 + 1)) with 0%nat.
  cbn [app]. rewrite Hscan, Hnd.
  unfold upto_index, from_index. rewrite Nat2Z.id.
  now rewrite take_app_length, drop_app_length.
Qed.

Lemma splitext_no_dot name :
  Forall (fun a => a <> extsep) name -> splitext name = (name, []).
Proof.
  intros Hname. unfold splitext. rewrite (rfind_absent extsep name Hname).
  pose proof (rfind_lower sep name).
  destruct (Z.gtb_spec (-1) (rfind sep name)); [lia | reflexivity].
Qed.

(** X4. The cache key of a path is the file name up to its last dot, whatever
    the directory and whatever the extension: [stem.e] and [dir/stem.e'] have
    the key [stem], and so has [dir/stem] for a stem without a dot. *)
Theorem cache_key_is_stem dir stem e :
  Forall (fun a => a <> sep) stem ->
  existsb (fun a => negb (a =? extsep)) stem = true ->
  Forall (fun a => a <> sep) e -> Forall (fun a => a <> extsep) e ->
  cache_key (stem ++ [extsep] ++ e) = stem
  /\ cache_key (dir ++ [sep] ++ stem ++ [extsep] ++ e) = stem
  /\ (Forall (fun a => a <> extsep) stem -> cache_key (dir ++ [sep] ++ stem) = stem).
Proof.
  intros Hstem Hnd Hes Hed.
  assert (Hname : Forall (fun a => a <> sep) (stem ++ [extsep] ++ e)).
  { apply Forall_app. split; [exact Hstem|].
    apply Forall_app. split; [|exact Hes]. repeat constructor. discriminate. }
  unfold cache_key. split; [|split].
  - rewrite basename_plain by exact Hname. now rewrite splitext_stem.
  - rewrite basename_after_sep by exact Hname. now rewrite splitext_stem.
  - intros Hnodot. rewrite basename_after_sep by exact Hstem.
    now rewrite splitext_no_dot.
Qed.

End PathsMore.

(** ** The shape of a flattened template *)

Section FlattenMore.

Import TemplateReader.

Implicit Types (s cur : text) (ws : list text).

Lemma split_from_double_space cur a b :
  split_from cur (a ++ space :: space :: b) = split_from cur (a ++ space :: b).
Proof.
  revert cur. induction a as [|c a IH]; intros cur.
  - cbn [app split_from]. change (isspace space) with true. cbv iota.
    destruct cur; reflexivity.
  - cbn [app split_from]. destruct (isspace c), cur; now rewrite IH.
Qed.

Lemma length_join_split_from s : forall cur,
  (length (join [space] (split_from cur s)) <= length cur + length s)%nat.
Proof.
  induction s as [|c s IH]; intros cur.
  - destruct cur; cbn; lia.
  - cbn [split_from length]. destruct (isspace c).
    + specialize (IH []). cbn [length] in IH.
      destruct cur as [|a cur]; [lia|].
      destruct (split_from [] s) as [|w ws] eqn:Hs; [cbn; lia|].
      rewrite join_cons by discriminate. rewrite !length_app. cbn [length] in *. lia.
    + specialize (IH (cur ++ [c])). rewrite length_app in IH. cbn [length] in IH. lia.
Qed.

Lemma split_from_nil_iff s :
  split_from [] s = [] <-> Forall (fun c => isspace c = true) s.
Proof.
  induction s as [|c s IH]; [split; [constructor | reflexivity]|].
  cbn [split_from]. destruct (isspace c) eqn:Hc.
  - rewrite IH. split; [now constructor | now inversion 1].
  - split.
    + intros H. now apply split_from_first_not_nil in H.
    + inversion 1; congruence.
Qed.

Lemma join_words_spaces ws :
  Forall word ws -> Forall (fun c => isspace c = true -> c = space) (join [space] ws).
Proof.
  assert (Hword : forall w, Forall nonspace w ->
                    Forall (fun c => isspace c = true -> c = space) w).
  { intros w Hw. eapply Forall_impl; [exact Hw|]. unfold nonspace. intros c Hc Hs.
    congruence. }
  induction 1 as [|w ws [_ Hw] Hws IH]; [constructor|].
  destruct ws as [|w' ws]; [now apply Hword|].
  rewrite join_cons by discriminate.
  apply Forall_app. split; [now apply Hword|].
  apply Forall_app. split; [|exact IH]. now repeat constructor.
Qed.

(** X5. What [get_template] makes of a content is on one line and singly
    spaced: its only whitespace characters are spaces, it has none at either
    end, and no two in a row. *)
Theorem flatten_single_spaced s :
  Forall (fun c => isspace c = true -> c = space) (flatten s)
  /\ strip (flatten s) = flatten s
  /\ (forall a b, flatten s <> a ++ [space; space] ++ b).
Proof.
  rewrite flatten_join_split.
  pose proof (split_words s) as Hws.
  split; [now apply join_words_spaces|]. split; [now apply strip_join|].
  intros a b Heq.
  assert (Hfix : join [space] (split (join [space] (split s))) = join [space] (split s))
    by now rewrite split_join.
  rewrite Heq in Hfix at 1 2. unfold split in Hfix at 1.
  cbn [app] in Hfix. rewrite split_from_double_space in Hfix.
  pose proof (length_join_split_from (a ++ space :: b) []) as Hlen.
  rewrite Hfix, !length_app in Hlen. cbn [length] in Hlen. lia.
Qed.

(** X6. Flattening keeps the words of the content, in order, and nothing
    else: the result splits into the same words, is never longer than the
    content, and is empty exactly when the content is blank. *)
Theorem flatten_keeps_words s :
  split (flatten s) = split s
  /\ (length (flatten s) <= length s)%nat
  /\ (flatten s = [] <-> Forall (fun c => isspace c = true) s).
Proof.
  rewrite flatten_join_split. pose proof (split_words s) as Hws.
  split; [now apply split_join|]. split.
  - apply (length_join_split_from s []).
  - rewrite <- split_from_nil_iff. fold (split s). split.
    + intros Hnil. destruct (split s) as [|w ws] eqn:Hs; [reflexivity|].
      now apply join_words_not_nil in Hnil.
    + now intros ->.
Qed.

End FlattenMore.

(** ** Filling templates given by their pieces *)

Section FillMore.

Import Format Pieces TemplateReader.

Context (ucd : unicodedata).
Variable ext : text -> text -> option char -> text -> gmap text text -> exception + text.

Lemma parse_from_escape s rest :
  parse_from InText (escape s ++ rest)
  = (map Literal s ++ fst (parse_from InText rest), snd (parse_from InText rest)).
Proof.
  unfold escape.
  induction s as [|c s IH]; [cbn [flat_map map app]; now destruct (parse_from InText rest)|].
  cbn [flat_map map app].
  destruct (N.eqb_spec c lbrace) as [->|Hl]; cbn [orb app].
  - cbn [parse_from]. change (lbrace =? lbrace) with true. cbv iota.
    now rewrite IH.
  - destruct (N.eqb_spec c rbrace) as [->|Hr]; cbn [app].
    + cbn [parse_from]. change (rbrace =? lbrace) with false.
      change (rbrace =? rbrace) with true. cbv iota. now rewrite IH.
    + cbn [parse_from].
      apply N.eqb_neq in Hl, Hr. rewrite Hl, Hr. now rewrite IH.
Qed.

Lemma name_char_spec c :
  name_char c = true ->
  (c =? lbrace) = false /\ (c =? rbrace) = false /\ (c =? lbracket) = false
  /\ (c =? dot) = false /\ (c =? bang) = false /\ (c =? colon) = false.
Proof.
  unfold name_char. rewrite negb_true_iff, !orb_false_iff. tauto.
Qed.

Lemma parse_from_name name rest : forall acc,
  forallb name_char name = true ->
  parse_from (InName acc) (name ++ rbrace :: rest)
  = (Field (acc ++ name) None [] :: fst (parse_from InText rest),
     snd (parse_from InText rest)).
Proof.
  induction name as [|c name IH]; intros acc Hname.
  - cbn [app parse_from]. change (rbrace =? lbrace) with false.
    change (rbrace =? rbrace) with true. cbv iota.
    rewrite app_nil_r. now destruct (parse_from InText rest).
  - cbn [forallb] in Hname. apply andb_true_iff in Hname as [Hc Hname].
    apply name_char_spec in Hc as (Hl & Hr & Hb & _ & Hg & Hn).
    cbn [app parse_from]. rewrite Hl, Hr, Hn, Hg, Hb.
    rewrite IH by exact Hname. now rewrite <- app_assoc.
Qed.

Lemma parse_from_hole name rest :
  forallb name_char name = true ->
  parse_from InText (lbrace :: name ++ rbrace :: rest)
  = (Field name None [] :: fst (parse_from InText rest), snd (parse_from InText rest)).
Proof.
  intros Hname. cbn [parse_from]. change (lbrace =? lbrace) with true. cbv iota.
  destruct name as [|c name].
  - cbn [app parse_from]. change (rbrace =? lbrace) with false.
    change (rbrace =? rbrace) with true. cbv iota.
    now destruct (parse_from InText rest).
  - cbn [forallb] in Hname. apply andb_true_iff in Hname as [Hc Hname].
    apply name_char_spec in Hc as (Hl & Hr & Hb & _ & Hg & Hn).
    cbn [app parse_from]. rewrite Hl, Hr, Hn, Hg, Hb.
    now rewrite (parse_from_name name rest [c] Hname).
Qed.

Lemma bare_name_chars name : bare_name ucd name = true -> forallb name_char name = true.
Proof. unfold bare_name. now intros [? _]%andb_true_iff. Qed.

(** The scan of a template written from pieces finds the pieces again. *)
Lemma parse_template_of pieces :
  bare_holes ucd pieces -> parse (template_of pieces) = (items_of pieces, true).
Proof.
  unfold parse, bare_holes.
  induction 1 as [|p pieces Hp _ IH]; [reflexivity|].
  unfold template_of, items_of in *. cbn [flat_map].
  destruct p as [s|name].
  - now rewrite parse_from_escape, IH.
  - rewrite <- !app_assoc. cbn [app] in IH |- *.
    rewrite parse_from_hole by now apply bare_name_chars.
    now rewrite IH.
Qed.

Lemma field_name_split_bare name :
  forallb name_char name = true -> field_name_split name = (name, []).
Proof.
  induction name as [|c name IH]; [reflexivity|].
  cbn [forallb]. intros [Hc Hname]%andb_true_iff.
  apply name_char_spec in Hc as (_ & _ & Hb & Hd & _).
  cbn [field_name_split]. rewrite Hd, Hb. cbn [orb]. now rewrite IH.
Qed.

Lemma output_markup_bare kwargs name :
  bare_name ucd name = true ->
  output_markup ucd ext kwargs name None []
  = match kwargs !! name with Some v => inr v | None => inl (KeyError name) end.
Proof.
  intros Hbare. unfold output_markup.
  rewrite field_name_split_bare by now apply bare_name_chars.
  unfold bare_name in Hbare. apply andb_true_iff in Hbare as [_ Hnum].
  apply negb_true_iff in Hnum. rewrite Hnum. now destruct (kwargs !! name).
Qed.

Lemma render_literals kwargs s items ok out :
  render ucd ext kwargs (map Literal s ++ items) ok out
  = render ucd ext kwargs items ok (out ++ s).
Proof.
  revert out. induction s as [|c s IH]; intros out; [now rewrite app_nil_r|].
  cbn [map app render]. rewrite IH. now rewrite <- app_assoc.
Qed.

Lemma render_items_of kwargs pieces : forall out,
  bare_holes ucd pieces ->
  match substitute kwargs pieces with
  | Some filled => render ucd ext kwargs (items_of pieces) true out = inr (out ++ filled)
  | None => exists name, render ucd ext kwargs (items_of pieces) true out = inl (KeyError name)
  end.
Proof.
  unfold bare_holes. intros out Hp. revert out.
  induction Hp as [|p pieces Hp _ IH]; intros out.
  - cbn. now rewrite app_nil_r.
  - unfold items_of in *. cbn [flat_map substitute]. destruct p as [s|name].
    + rewrite render_literals. specialize (IH (out ++ s)).
      destruct (substitute kwargs pieces) as [filled|]; cbn [fmap option_fmap option_map].
      * now rewrite IH, <- app_assoc.
      * exact IH.
    + cbn [app render]. rewrite (output_markup_bare kwargs name Hp).
      destruct (kwargs !! name) as [v|]; [|now exists name].
      specialize (IH (out ++ v)).
      destruct (substitute kwargs pieces) as [filled|]; cbn [fmap option_fmap option_map].
      * now rewrite IH, <- app_assoc.
      * exact IH.
Qed.

(** Formatting a template written from pieces substitutes the values. *)
Lemma format_template_of pieces kwargs :
  bare_holes ucd pieces ->
  match substitute kwargs pieces with
  | Some filled => format ucd ext (template_of pieces) kwargs = inr filled
  | None => exists name, format ucd ext (template_of pieces) kwargs = inl (KeyError name)
  end.
Proof.
  intros Hp. unfold format. rewrite (parse_template_of pieces Hp).
  exact (render_items_of kwargs pieces [] Hp).
Qed.


(** X8. Text without placeholders goes through [fill_template] whatever the
    data: written with its braces doubled it comes out with single braces, and
    text without braces comes out as it is. *)
Theorem fill_template_literal (self : TemplateLoader) (s : text) (data : gmap text text) :
  fst (fill_template ucd ext self (escape s) data) = s
  /\ (Forall (fun c => c <> lbrace /\ c <> rbrace) s ->
      fst (fill_template ucd ext self s data) = s).
Proof.
  assert (Hesc : fst (fill_template ucd ext self (escape s) data) = s).
  { pose proof (format_template_of [Lit s] data) as Hf.
    unfold template_of in Hf. cbn [flat_map substitute fmap option_fmap option_map] in Hf.
    rewrite !app_nil_r in Hf.
    pose proof (fill_template_cases ucd ext self (escape s) data) as Hc.
    rewrite Hf in Hc by (repeat constructor). now rewrite Hc. }
  split; [exact Hesc|]. intros Hplain.
  assert (Hid : escape s = s).
  { clear Hesc. unfold escape. induction Hplain as [|c s [Hl Hr] _ IH]; [reflexivity|].
    cbn [flat_map]. apply N.eqb_neq in Hl, Hr. rewrite Hl, Hr, IH. reflexivity. }
  now rewrite Hid in Hesc.
Qed.

End FillMore.

(** ** Stripping *)

Section StripMore.

Implicit Types (s t : text) (c : char).

Lemma forallb_isspace_rev s : forallb isspace (rev s) = forallb isspace s.
Proof.
  induction s as [|c s IH]; [reflexivity|].
  cbn [rev forallb]. rewrite forallb_app, IH. cbn [forallb].
  rewrite andb_true_r. apply andb_comm.
Qed.

Lemma rstrip_cons c s :
  rstrip (c :: s)
  = if forallb isspace s then (if isspace c then [] else [c]) else c :: rstrip s.
Proof.
  unfold rstrip. cbn [rev]. rewrite lstrip_snoc, forallb_isspace_rev.
  destruct (forallb isspace s); [now destruct (isspace c)|].
  rewrite rev_app_distr. reflexivity.
Qed.

Lemma lstrip_lstrip s : lstrip (lstrip s) = lstrip s.
Proof.
  induction s as [|c s IH]; [reflexivity|].
  cbn [lstrip]. destruct (isspace c) eqn:Hc; [exact IH|].
  cbn [lstrip]. now rewrite Hc.
Qed.

Lemma rstrip_rstrip s : rstrip (rstrip s) = rstrip s.
Proof. unfold rstrip. now rewrite rev_involutive, lstrip_lstrip. Qed.

Lemma lstrip_head s :
  lstrip s = [] \/ exists c t, lstrip s = c :: t /\ nonspace c.
Proof.
  induction s as [|c s IH]; [now left|].
  cbn [lstrip]. destruct (isspace c) eqn:Hc; [exact IH|].
  right. now exists c, s.
Qed.

(** What is stripped on the left is whitespace. *)
Lemma lstrip_split s :
  exists a, s = a ++ lstrip s /\ Forall (fun c => isspace c = true) a.
Proof.
  induction s as [|c s (a & Heq & Ha)]; [now exists []|].
  cbn [lstrip]. destruct (isspace c) eqn:Hc.
  - exists (c :: a). split; [cbn [app]; now f_equal | now constructor].
  - now exists [].
Qed.

Lemma rstrip_split s :
  exists b, s = rstrip s ++ b /\ Forall (fun c => isspace c = true) b.
Proof.
  destruct (lstrip_split (rev s)) as (a & Heq & Ha). exists (rev a). split.
  - unfold rstrip. rewrite <- rev_app_distr, <- Heq. now rewrite rev_involutive.
  - apply Forall_forall. intros c Hc. rewrite Forall_forall in Ha.
    apply Ha. apply list_elem_of_In. apply list_elem_of_In in Hc.
    now apply in_rev.
Qed.

(** Stripping what is stripped changes nothing. *)
Lemma strip_strip s : strip (strip s) = strip s.
Proof.
  unfold strip at 2 3. destruct (lstrip_head s) as [->|(c & t & -> & Hc)]; [reflexivity|].
  assert (Hfix : lstrip (rstrip (c :: t)) = rstrip (c :: t)).
  { rewrite rstrip_cons. unfold nonspace in Hc. rewrite Hc.
    destruct (forallb isspace t); now apply lstrip_nonspace. }
  unfold strip. now rewrite Hfix, rstrip_rstrip.
Qed.

Lemma strip_split s :
  exists a b, s = a ++ strip s ++ b
              /\ Forall (fun c => isspace c = true) a
              /\ Forall (fun c => isspace c = true) b.
Proof.
  destruct (lstrip_split s) as (a & Heq & Ha).
  destruct (rstrip_split (lstrip s)) as (b & Heq' & Hb).
  exists a, b. unfold strip. now rewrite <- Heq', <- Heq.
Qed.

End StripMore.

(** ** The extractor *)

Section ExtractorMore.

Import Regex PdfExtractor.

Context (ucd : unicodedata).
Variable pymupdf : text -> exception + document.

(** X9. [extract_content] ends in one of three ways: the open fails, and its
    exception is raised with no handle opened; every page yields its text, and
    the text is returned with the handle closed again; or some page fails, and
    the exception of the first such page is raised, no text is returned, and
    the handle stays open. *)
Theorem extract_content_outcomes (file_path : text) (remove_refs : bool) (handles : nat) :
  (exists e,
     pymupdf file_path = inl e
     /\ extract_content ucd pymupdf file_path remove_refs handles = (inl e, handles))
  \/ (exists ts,
        pymupdf file_path = inr (map inr ts)
        /\ extract_content ucd pymupdf file_path remove_refs handles
           = (inr (if remove_refs
                   then _ref_cleaner ucd (normalize_NFKD ucd (join [space] ts))
                   else normalize_NFKD ucd (join [space] ts)),
              handles))
  \/ (exists ts e rest,
        pymupdf file_path = inr (map inr ts ++ inl e :: rest)
        /\ extract_content ucd pymupdf file_path remove_refs handles
           = (inl e, S handles)).
Proof.
  destruct (pymupdf file_path) as [e|doc] eqn:Hopen.
  - left. exists e. split; [reflexivity|]. now apply extract_content_open_fails.
  - destruct (document_cases doc) as [(ts & ->)|(ts & e & rest & ->)].
    + right. left. exists ts. split; [reflexivity|].
      now rewrite (extract_content_ok ucd pymupdf _ _ _ ts Hopen).
    + right. right. exists ts, e, rest. split; [reflexivity|].
      exact (extract_content_page_raises ucd pymupdf _ _ _ ts e rest Hopen).
Qed.

(** X10. Reference removal is a step after the extraction: with [remove_refs]
    the call returns [_ref_cleaner] of what it returns without, and raises
    what it raises without, the handles being left the same. *)
Theorem extract_content_remove_refs_after (file_path : text) (handles : nat) :
  extract_content ucd pymupdf file_path true handles
  = match extract_content ucd pymupdf file_path false handles with
    | (inr t, handles') => (inr (_ref_cleaner ucd t), handles')
    | (inl e, handles') => (inl e, handles')
    end.
Proof.
  destruct (pymupdf file_path) as [e|doc] eqn:Hopen.
  - now rewrite !(extract_content_open_fails ucd pymupdf _ _ _ e Hopen).
  - destruct (document_cases doc) as [(ts & ->)|(ts & e & rest & ->)].
    + now rewrite !(extract_content_ok ucd pymupdf _ _ _ ts Hopen).
    + now rewrite !(extract_content_page_raises ucd pymupdf _ _ _ ts e rest Hopen).
Qed.

(** X11. What [_ref_cleaner] returns is a stretch of the text it was given,
    with only whitespace of the text before it, has no whitespace at either
    end, and is not longer than the text. *)
Theorem ref_cleaner_is_trimmed_part (text : Text.text) :
  strip (_ref_cleaner ucd text) = _ref_cleaner ucd text
  /\ (exists before after,
        text = before ++ _ref_cleaner ucd text ++ after
        /\ Forall (fun c => isspace c = true) before)
  /\ (length (_ref_cleaner ucd text) <= length text)%nat.
Proof.
  rewrite ref_cleaner_boundary.
  set (cut := Spec.boundary ucd ref_patterns text).
  destruct (strip_split (take cut text)) as (a & b & Heq & Ha & _).
  assert (Hpart : text = a ++ strip (take cut text) ++ (b ++ drop cut text)).
  { rewrite <- (take_drop cut text) at 1. rewrite Heq at 1.
    now rewrite <- !app_assoc. }
  split; [apply strip_strip|]. split.
  - now exists a, (b ++ drop cut text).
  - rewrite Hpart at 2. rewrite !length_app. lia.
Qed.

End ExtractorMore.

(** ** Where the text is cut *)

Section CutMore.

Import Regex PdfExtractor.

Context (ucd : unicodedata).

(** A pattern that begins with (?:^|\n) matches only at the start of the text
    or on a newline. *)
Lemma matches_line_start r prev s k :
  matches ucd (line_start r) prev s k = true -> prev = None \/ head s = Some nl.
Proof.
  unfold line_start. cbn [matches]. intros [H|H]%orb_true_iff.
  - left. now destruct prev.
  - right. destruct s as [|a s]; [discriminate|].
    apply andb_true_iff in H as [H _].
    unfold chr_ignorecase in H. cbn in H. rewrite orb_false_r in H.
    apply N.eqb_eq in H. now subst.
Qed.

Lemma ref_patterns_line_start p :
  p ∈ ref_patterns -> exists r, p = line_start r.
Proof.
  unfold ref_patterns. rewrite !elem_of_cons, elem_of_nil.
  intros [->|[->|[->|[->|[]]]]]; eexists; reflexivity.
Qed.

Lemma search_line_start p text i :
  p ∈ ref_patterns -> search ucd p text = Some i ->
  i = 0%nat \/ text !! i = Some nl.
Proof.
  intros Hp Hs. apply ref_patterns_line_start in Hp as [r ->].
  apply search_leftmost in Hs as (Hi & Hat & _).
  unfold matches_at, matches_here in Hat.
  apply matches_line_start in Hat as [Hlast|Hhead].
  - left. apply last_None in Hlast. destruct i; [reflexivity|].
    destruct text; [cbn in Hi; lia | discriminate].
  - right. rewrite <- Hhead, head_lookup, lookup_drop. f_equal. lia.
Qed.

(** X12. [_ref_cleaner] cuts at a line break or not at all: what it returns is
    the trimmed text before some newline of the text, or the whole text
    trimmed, or (cut at offset 0) nothing. *)
Theorem ref_cleaner_cuts_at_newline (text : Text.text) :
  exists cut,
    (cut <= length text)%nat
    /\ _ref_cleaner ucd text = strip (take cut text)
    /\ (cut = length text \/ cut = 0%nat \/ text !! cut = Some nl).
Proof.
  exists (Spec.boundary ucd ref_patterns text).
  destruct (boundary_attained ucd ref_patterns text) as [(p & Hp & Hs)|[_ Hlen]].
  - split; [now apply search_leftmost in Hs|]. split; [apply ref_cleaner_boundary|].
    right. now apply (search_line_start p).
  - split; [lia|]. split; [apply ref_cleaner_boundary | now left].
Qed.

(** A match at the start of the text leaves nothing. *)
Lemma ref_cleaner_match_at_start p text :
  p ∈ ref_patterns -> matches_here ucd p None text = true ->
  _ref_cleaner ucd text = [].
Proof.
  intros Hp Hm. rewrite ref_cleaner_boundary.
  assert (Hs : search ucd p text = Some 0%nat).
  { unfold search. destruct text; cbn [search_from]; now rewrite Hm. }
  pose proof (boundary_le ucd ref_patterns text p 0%nat Hp Hs) as Hle.
  replace (Spec.boundary ucd ref_patterns text) with 0%nat by lia.
  reflexivity.
Qed.

Lemma starcls_skip f k prev indent s :
  Forall (fun c => f c = true) indent ->
  (forall prev', k prev' s = true) ->
  starcls f k prev (indent ++ s) = true.
Proof.
  intros Hind Hk. revert prev.
  induction Hind as [|c indent Hc _ IH]; intros prev.
  - cbn [app]. destruct s; cbn [starcls]; rewrite Hk; [reflexivity|].
    apply orb_true_r.
  - cbn [app starcls]. now rewrite Hc, IH.
Qed.

(** An ASCII delimiter is not a word character. *)
Lemma delimiter_not_word d :
  d < 128 -> delimiter d = true -> is_word ucd d = false.
Proof.
  intros Hd Hdel.
  assert (Hall : forallb (fun n => implb (delimiter (N.of_nat n))
                                        (negb (is_word ucd (N.of_nat n))))
                   (seq 0 128) = true) by (vm_compute; reflexivity).
  rewrite forallb_forall in Hall. specialize (Hall (N.to_nat d)).
  rewrite N2Nat.id, Hdel in Hall. cbn [implb] in Hall.
  apply negb_true_iff, Hall, in_seq. lia.
Qed.

Lemma header_end_matches c d rest :
  is_word ucd c = true -> d < 128 -> delimiter d = true ->
  matches ucd header_end (Some c) (d :: rest) (fun _ _ => true) = true.
Proof.
  intros Hc Hd Hdel. unfold header_end. cbn [matches is_word_at head].
  now rewrite Hc, (delimiter_not_word d Hd Hdel), Hdel.
Qed.

(** X13. A text that begins, after whitespace at most, with one of the
    headers [Reference], [References], [Bibliography], [Literature cited],
    [Works cited] followed by an ASCII colon or whitespace character is all
    references: [_ref_cleaner] returns the empty string. *)
Theorem ref_cleaner_header_first (indent header rest : Text.text) (d : char) :
  Forall (fun c => isspace c = true) indent ->
  header ∈ [u "Reference"; u "References"; u "Bibliography";
            u "Literature cited"; u "Works cited"] ->
  d < 128 -> delimiter d = true ->
  _ref_cleaner ucd (indent ++ header ++ d :: rest) = [].
Proof.
  intros Hind Hh Hd Hdel.
  assert (Hend : forall c, is_word ucd c = true ->
            matches ucd header_end (Some c) (d :: rest) (fun _ _ => true) = true)
    by (intros c Hc; now apply header_end_matches).
  assert (Hstart : forall r,
            (forall prev', matches ucd r prev' (header ++ d :: rest) (fun _ _ => true) = true) ->
            matches_here ucd (line_start r) None (indent ++ header ++ d :: rest) = true).
  { intros r Hr. unfold matches_here, line_start. cbn [matches].
    rewrite starcls_skip; [reflexivity | exact Hind | exact Hr]. }
  rewrite !elem_of_cons, elem_of_nil in Hh.
  destruct Hh as [->|[->|[->|[->|[->|[]]]]]].
  - apply (ref_cleaner_match_at_start pat_references);
      [unfold ref_patterns; rewrite !elem_of_cons; tauto|].
    apply Hstart. intros prev'.
    change (matches ucd (Opt (Chr 115)) (Some 101) (d :: rest)
              (fun prev s => matches ucd header_end prev s (fun _ _ => true)) = true).
    cbn [matches]. rewrite (Hend 101) by reflexivity. apply orb_true_r.
  - apply (ref_cleaner_match_at_start pat_references);
      [unfold ref_patterns; rewrite !elem_of_cons; tauto|].
    apply Hstart. intros prev'.
    change (matches ucd (Opt (Chr 115)) (Some 101) (115 :: d :: rest)
              (fun prev s => matches ucd header_end prev s (fun _ _ => true)) = true).
    cbn [matches]. change (chr_ignorecase 115 115) with true.
    cbn [andb]. now rewrite (Hend 115) by reflexivity.
  - apply (ref_cleaner_match_at_start pat_bibliography);
      [unfold ref_patterns; rewrite !elem_of_cons; tauto|].
    apply Hstart. intros prev'. exact (Hend 121 eq_refl).
  - apply (ref_cleaner_match_at_start pat_literature_cited);
      [unfold ref_patterns; rewrite !elem_of_cons; tauto|].
    apply Hstart. intros prev'. exact (Hend 100 eq_refl).
  - apply (ref_cleaner_match_at_start pat_works_cited);
      [unfold ref_patterns; rewrite !elem_of_cons; tauto|].
    apply Hstart. intros prev'. exact (Hend 100 eq_refl).
Qed.

End CutMore.

(** ** Letter case *)

Section CaseMore.

Import Regex PdfExtractor.

Context (ucd : unicodedata).

Ltac upper_cases a :=
  unfold ascii_upper;
  destruct (N.leb_spec 97 a); [|reflexivity];
  destruct (N.leb_spec a 122); [|reflexivity];
  cbn [andb].

Lemma isspace_upper a : isspace (ascii_upper a) = isspace a.
Proof.
  upper_cases a. unfold isspace.
  repeat match goal with
         | |- context [?x <=? ?y] => destruct (N.leb_spec x y); try lia
         | |- context [?x =? ?y] => destruct (N.eqb_spec x y); try lia
         end; reflexivity.
Qed.

Lemma delimiter_upper a : delimiter (ascii_upper a) = delimiter a.
Proof.
  unfold delimiter. rewrite isspace_upper. f_equal; [f_equal|].
  - upper_cases a.
    repeat match goal with
           | |- context [?x =? ?y] => destruct (N.eqb_spec x y); try lia
           end; reflexivity.
  - upper_cases a. unfold nl.
    repeat match goal with
           | |- context [?x =? ?y] => destruct (N.eqb_spec x y); try lia
           end; reflexivity.
Qed.

Lemma is_word_upper a : is_word ucd (ascii_upper a) = is_word ucd a.
Proof.
  upper_cases a. unfold is_word, isalnum.
  repeat match goal with
         | |- context [?x <? ?y] => destruct (N.ltb_spec x y); try lia
         | |- context [?x <=? ?y] => destruct (N.leb_spec x y); try lia
         | |- context [?x =? ?y] => destruct (N.eqb_spec x y); try lia
         end; reflexivity.
Qed.

Lemma is_word_at_upper prev :
  is_word_at ucd (ascii_upper <$> prev) = is_word_at ucd prev.
Proof. destruct prev; [apply is_word_upper | reflexivity]. Qed.

Lemma starcls_upper f k k' s : forall prev,
  (forall a, f (ascii_upper a) = f a) ->
  (forall p' s', k' (ascii_upper <$> p') (map ascii_upper s') = k p' s') ->
  starcls f k' (ascii_upper <$> prev) (map ascii_upper s) = starcls f k prev s.
Proof.
  intros prev Hf Hk. revert prev.
  induction s as [|a s IH]; intros prev; cbn [map starcls]; [exact (Hk prev [])|].
  rewrite Hf. pose proof (IH (Some a)) as IHa.
  pose proof (Hk prev (a :: s)) as Hka.
  cbn [fmap option_fmap option_map map] in IHa, Hka. now rewrite IHa, Hka.
Qed.

(** Matching does not see the case of the ASCII letters of the text. *)
Lemma matches_upper r : forall prev s k k',
  case_blind r ->
  (forall p' s', k' (ascii_upper <$> p') (map ascii_upper s') = k p' s') ->
  matches ucd r (ascii_upper <$> prev) (map ascii_upper s) k' = matches ucd r prev s k.
Proof.
  induction r as [p|f| | |r1 IH1 r2 IH2|r1 IH1 r2 IH2|f|r IH];
    intros prev s k k' Hr Hk; cbn [matches case_blind] in *.
  - destruct s as [|a s]; [reflexivity|]. cbn [map].
    pose proof (Hk (Some a) s) as Hka.
    cbn [fmap option_fmap option_map] in Hka. now rewrite Hr, Hka.
  - destruct s as [|a s]; [reflexivity|]. cbn [map].
    pose proof (Hk (Some a) s) as Hka.
    cbn [fmap option_fmap option_map] in Hka. now rewrite Hr, Hka.
  - destruct prev; [reflexivity|]. exact (Hk None s).
  - rewrite is_word_at_upper.
    replace (head (map ascii_upper s)) with (ascii_upper <$> head s)
      by now destruct s.
    now rewrite is_word_at_upper, Hk.
  - destruct Hr as [H1 H2]. apply IH1; [exact H1|].
    intros p' s'. now apply IH2.
  - destruct Hr as [H1 H2]. now rewrite (IH1 prev s k k'), (IH2 prev s k k').
  - now apply starcls_upper.
  - now rewrite (IH prev s k k'), Hk.
Qed.

Lemma matches_here_upper r prev s :
  case_blind r ->
  matches_here ucd r (ascii_upper <$> prev) (map ascii_upper s)
  = matches_here ucd r prev s.
Proof. intros Hr. unfold matches_here. now apply matches_upper. Qed.

Lemma search_from_upper r s : forall prev pos,
  case_blind r ->
  search_from ucd r (ascii_upper <$> prev) (map ascii_upper s) pos
  = search_from ucd r prev s pos.
Proof.
  intros prev pos Hr. revert prev pos.
  induction s as [|a s IH]; intros prev pos;
    pose proof (matches_here_upper r prev) as Hm;
    cbn [map search_from].
  - specialize (Hm [] Hr). cbn [map] in Hm. now rewrite Hm.
  - specialize (Hm (a :: s) Hr). cbn [map] in Hm. rewrite Hm.
    pose proof (IH (Some a) (S pos)) as IHa.
    cbn [fmap option_fmap option_map] in IHa. now rewrite IHa.
Qed.

Lemma search_upper r text :
  case_blind r -> search ucd r (map ascii_upper text) = search ucd r text.
Proof. intros Hr. apply (search_from_upper r text None 0%nat Hr). Qed.

Ltac chr_blind :=
  let a := fresh "a" in
  intros a; unfold chr_ignorecase;
  match goal with
  | |- context [ignorecase_set ?p] =>
      let l := eval vm_compute in (ignorecase_set p) in
      change (ignorecase_set p) with l
  end;
  cbn [existsb]; upper_cases a;
  repeat match goal with
         | |- context [?x =? ?y] => destruct (N.eqb_spec x y); try lia
         end; reflexivity.

Lemma ref_patterns_case_blind p : p ∈ ref_patterns -> case_blind p.
Proof.
  unfold ref_patterns. rewrite !elem_of_cons, elem_of_nil.
  intros [->|[->|[->|[->|[]]]]];
    cbn [case_blind pat_references pat_bibliography pat_literature_cited
         pat_works_cited line_start header_end lit];
    repeat split;
    first [ exact isspace_upper | exact delimiter_upper | chr_blind ].
Qed.

Lemma lstrip_upper s : lstrip (map ascii_upper s) = map ascii_upper (lstrip s).
Proof.
  induction s as [|c s IH]; [reflexivity|].
  cbn [map lstrip]. rewrite isspace_upper. now destruct (isspace c).
Qed.

Lemma strip_upper s : strip (map ascii_upper s) = map ascii_upper (strip s).
Proof.
  unfold strip, rstrip.
  now rewrite lstrip_upper, <- map_rev, lstrip_upper, <- map_rev.
Qed.

(** X14. The search for the headers is blind to the case of the ASCII
    letters: putting the text in upper case does not move the cut, so
    [_ref_cleaner] of the upper-cased text is the upper-cased result. *)
Theorem ref_cleaner_case_blind (text : Text.text) :
  _ref_cleaner ucd (map ascii_upper text) = map ascii_upper (_ref_cleaner ucd text).
Proof.
  rewrite !ref_cleaner_boundary.
  assert (Hcut : Spec.boundary ucd ref_patterns (map ascii_upper text)
                 = Spec.boundary ucd ref_patterns text).
  { unfold Spec.boundary. rewrite length_map. f_equal.
    assert (Hall : forall p, p ∈ ref_patterns -> case_blind p)
      by apply ref_patterns_case_blind.
    induction ref_patterns as [|p ps IH]; [reflexivity|].
    cbn [omap list_omap].
    rewrite search_upper by (apply Hall, elem_of_cons; now left).
    rewrite IH by (intros q Hq; apply Hall, elem_of_cons; now right).
    reflexivity. }
  rewrite Hcut, <- strip_upper. f_equal. apply firstn_map.
Qed.

End CaseMore.

(** ** The test run of the extractor *)

Section MainMore.

Import PosixPath Regex PdfExtractor.

Context (ucd : unicodedata).
Variable pymupdf : text -> exception + document.
Variable str_exception : exception -> text.

Lemma join_step_after q c b :
  c <> sep -> startswith [sep] b = false ->
  join_step (q ++ [c]) b = (q ++ [c]) ++ [sep] ++ b.
Proof.
  intros Hc Hb. unfold join_step, endswith. rewrite Hb, rev_app_distr.
  cbn [rev app startswith]. destruct (N.eqb_spec sep c) as [Heq|_]; [congruence|].
  cbn [andb orb]. now destruct q.
Qed.

(** X15. The path [main] reads is that of [file.pdf] in [tests/data], two
    levels above the directory of the script: the directory, a separator
    unless the directory is empty or ends in one, and
    [../../tests/data/file.pdf]. *)
Theorem pdf_path_shape (script_dir : text) :
  pdf_path script_dir
  = (if (match script_dir with [] => true | _ => false end) || endswith [sep] script_dir
     then script_dir else script_dir ++ [sep])
    ++ u "../../tests/data/file.pdf".
Proof.
  unfold pdf_path, join_path. cbn [fold_left].
  set (d := if (match script_dir with [] => true | _ => false end)
               || endswith [sep] script_dir
            then script_dir else script_dir ++ [sep]).
  assert (H1 : join_step script_dir (u "..") = (d ++ [46]) ++ [46]).
  { unfold join_step, d. change (startswith [sep] (u "..")) with false. cbv iota.
    destruct (_ || _); now rewrite <- !app_assoc. }
  rewrite H1.
  rewrite join_step_after by (discriminate || reflexivity).
  replace (((d ++ [46]) ++ [46]) ++ [sep] ++ u "..")
    with ((d ++ u "../.") ++ [46]) by now rewrite <- !app_assoc.
  rewrite join_step_after by (discriminate || reflexivity).
  replace (((d ++ u "../.") ++ [46]) ++ [sep] ++ u "tests")
    with ((d ++ u "../../test") ++ [115]) by now rewrite <- !app_assoc.
  rewrite join_step_after by (discriminate || reflexivity).
  replace (((d ++ u "../../test") ++ [115]) ++ [sep] ++ u "data")
    with ((d ++ u "../../tests/dat") ++ [97]) by now rewrite <- !app_assoc.
  rewrite join_step_after by (discriminate || reflexivity).
  now rewrite <- !app_assoc.
Qed.

(** X16. What [main] shows of the content is the content itself when it has at
    most 500 characters, and otherwise its first 500 characters followed by
    three dots: never more than 503 characters, and always beginning as the
    content does. *)
Theorem preview_bounded (content : text) :
  (length (preview content) <= 503)%nat
  /\ take 500 (preview content) = take 500 content
  /\ ((length content <= 500)%nat -> preview content = content)
  /\ ((500 < length content)%nat ->
      preview content = take 500 content ++ u "..."
      /\ length (preview content) = 503%nat).
Proof.
  unfold preview. destruct (Nat.ltb_spec 500 (length content)) as [Hlong|Hshort].
  - assert (Hlen : length (take 500 content ++ u "...") = 503%nat).
    { rewrite length_app, length_take. cbn [u length]. lia. }
    split; [lia|]. split; [|split; [lia | now split]].
    rewrite take_app_le by (rewrite length_take; lia).
    apply take_take.
  - split; [lia|]. split; [reflexivity|]. split; [reflexivity | lia].
Qed.

(** X17. [main] reports every failure of the extraction in one line and
    carries on: if the open fails nothing is left open; if the pages are read
    it prints the heading and the preview of the cleaned text, the handle
    closed; if a page fails it prints the error, and the handle that
    [extract_content] left open is still open when [main] ends. *)
Theorem main_outcomes (script_dir : text) (handles : nat) :
  let file_path := pdf_path script_dir in
  (exists e,
     pymupdf file_path = inl e
     /\ main ucd pymupdf str_exception script_dir handles
        = ([u "An error occurred: " ++ str_exception e], handles))
  \/ (exists ts,
        pymupdf file_path = inr (map inr ts)
        /\ main ucd pymupdf str_exception script_dir handles
           = ([u "PDF content extracted successfully:";
               preview (_ref_cleaner ucd (normalize_NFKD ucd (join [space] ts)))],
              handles))
  \/ (exists ts e rest,
        pymupdf file_path = inr (map inr ts ++ inl e :: rest)
        /\ main ucd pymupdf str_exception script_dir handles
           = ([u "An error occurred: " ++ str_exception e], S handles)).
Proof.
  cbv zeta. unfold main.
  destruct (pymupdf (pdf_path script_dir)) as [e|doc] eqn:Hopen.
  - left. exists e. split; [reflexivity|].
    now rewrite (extract_content_open_fails ucd pymupdf _ _ _ e Hopen).
  - destruct (document_cases doc) as [(ts & ->)|(ts & e & rest & ->)].
    + right. left. exists ts. split; [reflexivity|].
      now rewrite (extract_content_ok ucd pymupdf _ _ _ ts Hopen).
    + right. right. exists ts, e, rest. split; [reflexivity|].
      now rewrite (extract_content_page_raises ucd pymupdf _ _ _ ts e rest Hopen).
Qed.

End MainMore.

(** ** The loader over its lifetime *)

Section LifetimeMore.

Import TemplateReader.

Context (ucd : unicodedata).
Variable ext : text -> text -> option char -> text -> gmap text text -> exception + text.

Implicit Types (self : TemplateLoader) (fs : gmap text node).

Lemma load_content_template self fs template_path :
  template (snd (load_content self fs template_path)) = template self.
Proof.
  destruct (template_cache self !! cache_key template_path) as [cached|] eqn:Hc.
  - now rewrite (load_content_hit self fs template_path cached Hc).
  - destruct (load_content_miss self fs template_path Hc)
      as [(content & _ & _ & ->)|[_ ->]]; reflexivity.
Qed.

Lemma perform_template self c filled :
  template (perform ucd ext self c) = Some filled ->
  template self = Some filled
  \/ exists t data, c = FillTemplate t data /\ Format.format ucd ext t data = inr filled.
Proof.
  destruct c as [fs path|t data|fs path]; cbn [perform].
  - rewrite load_content_template. now left.
  - pose proof (fill_template_cases ucd ext self t data) as H.
    destruct (Format.format ucd ext t data) as [e|result] eqn:Hf; rewrite H; cbn [snd template].
    + now left.
    + intros [= ->]. right. now exists t, data.
  - rewrite get_template_load. cbn [snd]. rewrite load_content_template. now left.
Qed.

(** X18. The attribute [template] of a loader only ever holds the result of a
    fill that succeeded: whatever is called on a fresh loader, if [template]
    is set, one of the calls was a [fill_template] whose formatting returned
    that text. *)
Theorem template_holds_a_filled_text (calls : list call) (filled : text) :
  template (run ucd ext init calls) = Some filled ->
  exists t data,
    FillTemplate t data ∈ calls /\ Format.format ucd ext t data = inr filled.
Proof.
  assert (Hgen : forall self,
            template (run ucd ext self calls) = Some filled ->
            template self = Some filled
            \/ exists t data,
                 FillTemplate t data ∈ calls /\ Format.format ucd ext t data = inr filled).
  { unfold run. induction calls as [|c calls IH]; intros self H; [now left|].
    cbn [fold_left] in H. apply IH in H as [H|(t & data & Hin & Hf)].
    - apply perform_template in H as [H|(t & data & -> & Hf)]; [now left|].
      right. exists t, data. split; [apply elem_of_cons; now left | exact Hf].
    - right. exists t, data. split; [apply elem_of_cons; now right | exact Hf]. }
  intros H. apply Hgen in H as [H|H]; [discriminate | exact H].
Qed.

(** X19. [get_template] and [load_content] share the cache, and what is
    cached is the content as read, not the flattened text: after a
    [get_template] that read a file, [load_content] of a path with the same key
    returns the file's content as it was, and [get_template] its flattening,
    whatever the file system has become. *)
Theorem get_template_caches_content self fs fs' template_type path' content :
  template_cache self !! cache_key template_type = None ->
  fs !! template_type = Some (File content) ->
  endswith ext_md template_type || endswith ext_txt template_type = true ->
  cache_key path' = cache_key template_type ->
  fst (get_template self fs template_type) = flatten content
  /\ fst (load_content (snd (get_template self fs template_type)) fs' path') = content
  /\ fst (get_template (snd (get_template self fs template_type)) fs' path')
     = flatten content.
Proof.
  intros Hmiss Hfile Hext Hkey.
  rewrite !get_template_load.
  rewrite (load_content_miss_loads self fs template_type content Hmiss Hfile Hext).
  cbn [fst snd].
  assert (Hhit : forall fs'', load_content
            {| template_cache := <[cache_key template_type := content]> (template_cache self);
               template := template self |} fs'' path'
          = (content,
             {| template_cache := <[cache_key template_type := content]> (template_cache self);
                template := template self |})).
  { intros fs''. apply load_content_hit. rewrite Hkey. cbn [template_cache].
    apply lookup_insert_eq. }
  now rewrite !Hhit.
Qed.

End LifetimeMore.

(** ** The further properties at work on concrete inputs *)

Section InstancesMore.

Import PosixPath Format Pieces TemplateReader Regex PdfExtractor.

(** X1 at work: [a.md] is asked for before it exists, and again once it does. *)
Lemma load_content_failure_not_cached_witness :
  let fs' : gmap text node := {[ u "a.md" := File (u "hello") ]} in
  template_cache init !! cache_key (u "a.md") = None
  /\ ((∅ : gmap text node) !! u "a.md" = None
      \/ (∅ : gmap text node) !! u "a.md" = Some Unreadable)
  /\ fs' !! u "a.md" = Some (File (u "hello"))
  /\ endswith ext_md (u "a.md") || endswith ext_txt (u "a.md") = true
  /\ load_content init ∅ (u "a.md") = ([], init)
  /\ fst (load_content (snd (load_content init ∅ (u "a.md"))) fs' (u "a.md")) = u "hello".
Proof.
  cbv zeta.
  assert (H1 : template_cache init !! cache_key (u "a.md") = None)
    by (vm_compute; reflexivity).
  assert (H2 : (∅ : gmap text node) !! u "a.md" = None
               \/ (∅ : gmap text node) !! u "a.md" = Some Unreadable)
    by (left; vm_compute; reflexivity).
  assert (H3 : ({[ u "a.md" := File (u "hello") ]} : gmap text node) !! u "a.md"
               = Some (File (u "hello"))) by (vm_compute; reflexivity).
  assert (H4 : endswith ext_md (u "a.md") || endswith ext_txt (u "a.md") = true)
    by (vm_compute; reflexivity).
  exact (conj H1 (conj H2 (conj H3 (conj H4
           (load_content_failure_not_cached init ∅ _ (u "a.md") (u "hello")
              H1 H2 H3 H4))))).
Defined.

(** X3 at work: after a failed load, a load and a fill, the one entry of the
    cache is the content of the file that was loaded. *)
Lemma cache_holds_file_contents_witness :
  let fs : gmap text node := {[ u "a/x.md" := File (u "first") ]} in
  let calls := [LoadContent ∅ (u "b.md"); GetTemplate fs (u "a/x.md");
                FillTemplate (u "Hello {name}") ∅] in
  template_cache (run ascii_tables bare_fields_only init calls) !! u "x"
  = Some (u "first")
  /\ exists fs0 template_path,
       (LoadContent fs0 template_path ∈ calls \/ GetTemplate fs0 template_path ∈ calls)
       /\ cache_key template_path = u "x"
       /\ fs0 !! template_path = Some (File (u "first"))
       /\ endswith ext_md template_path || endswith ext_txt template_path = true.
Proof.
  cbv zeta.
  assert (H1 : template_cache
                 (run ascii_tables bare_fields_only init
                    [LoadContent ∅ (u "b.md");
                     GetTemplate {[ u "a/x.md" := File (u "first") ]} (u "a/x.md");
                     FillTemplate (u "Hello {name}") ∅]) !! u "x"
               = Some (u "first")) by (vm_compute; reflexivity).
  exact (conj H1 (cache_holds_file_contents ascii_tables bare_fields_only _ _ _ H1)).
Defined.

(** X4 at work: [prompts/intro.md], [intro.txt] and [other/intro] share the
    key [intro]. *)
Lemma cache_key_is_stem_witness :
  Forall (fun a => a <> sep) (u "intro")
  /\ existsb (fun a => negb (a =? extsep)) (u "intro") = true
  /\ Forall (fun a => a <> sep) (u "md") /\ Forall (fun a => a <> extsep) (u "md")
  /\ Forall (fun a => a <> extsep) (u "intro")
  /\ cache_key (u "intro.md") = u "intro"
  /\ cache_key (u "prompts/intro.md") = u "intro"
  /\ cache_key (u "other/intro") = u "intro".
Proof.
  assert (H1 : Forall (fun a => a <> sep) (u "intro")) by (repeat constructor; discriminate).
  assert (H2 : existsb (fun a => negb (a =? extsep)) (u "intro") = true) by reflexivity.
  assert (H3 : Forall (fun a => a <> sep) (u "md")) by (repeat constructor; discriminate).
  assert (H4 : Forall (fun a => a <> extsep) (u "md")) by (repeat constructor; discriminate).
  assert (H5 : Forall (fun a => a <> extsep) (u "intro"))
    by (repeat constructor; discriminate).
  pose proof (cache_key_is_stem (u "prompts") (u "intro") (u "md") H1 H2 H3 H4)
    as (Ha & Hb & _).
  pose proof (cache_key_is_stem (u "other") (u "intro") (u "md") H1 H2 H3 H4)
    as (_ & _ & Hc).
  exact (conj H1 (conj H2 (conj H3 (conj H4 (conj H5 (conj Ha (conj Hb (Hc H5)))))))).
Defined.


(** X8 at work: a text without braces comes back as it is. *)
Lemma fill_template_literal_witness :
  Forall (fun c => c <> lbrace /\ c <> rbrace) (u "No placeholders here.")
  /\ fst (fill_template ascii_tables bare_fields_only init (u "No placeholders here.")
            {[ u "who" := u "Ada" ]})
     = u "No placeholders here.".
Proof.
  assert (H1 : Forall (fun c => c <> lbrace /\ c <> rbrace) (u "No placeholders here."))
    by (repeat constructor; discriminate).
  exact (conj H1 (proj2 (fill_template_literal ascii_tables bare_fields_only init
                           (u "No placeholders here.") {[ u "who" := u "Ada" ]}) H1)).
Defined.

(** X13 at work: an indented [Bibliography:] at the very start. *)
Lemma ref_cleaner_header_first_witness :
  Forall (fun c => isspace c = true) (u "  ")
  /\ u "Bibliography" ∈ [u "Reference"; u "References"; u "Bibliography";
                        u "Literature cited"; u "Works cited"]
  /\ 58 < 128 /\ delimiter 58 = true
  /\ _ref_cleaner ascii_tables (u "  " ++ u "Bibliography" ++ 58 :: u " [1] Doe.") = [].
Proof.
  assert (H1 : Forall (fun c => isspace c = true) (u "  ")) by (repeat constructor).
  assert (H2 : u "Bibliography" ∈ [u "Reference"; u "References"; u "Bibliography";
                                   u "Literature cited"; u "Works cited"])
    by (apply list_elem_of_In; right; right; left; reflexivity).
  assert (H3 : 58 < 128) by reflexivity.
  assert (H4 : delimiter 58 = true) by reflexivity.
  exact (conj H1 (conj H2 (conj H3 (conj H4
           (ref_cleaner_header_first ascii_tables _ _ (u " [1] Doe.") 58 H1 H2 H3 H4))))).
Defined.

(** X16 at work on a short content. *)
Lemma preview_bounded_witness :
  (length (u "short") <= 500)%nat /\ preview (u "short") = u "short".
Proof.
  assert (H1 : (length (u "short") <= 500)%nat) by (cbn; lia).
  exact (conj H1 (proj1 (proj2 (proj2 (preview_bounded (u "short")))) H1)).
Defined.

(** X18 at work: after a failed and a successful fill, [template] holds the
    text of the successful one. *)
Lemma template_holds_a_filled_text_witness :
  let calls := [FillTemplate (u "Hello {name}") {[ u "name" := u "World" ]};
                FillTemplate (u "Bye {name}") ∅] in
  template (run ascii_tables bare_fields_only init calls) = Some (u "Hello World")
  /\ exists t data,
       FillTemplate t data ∈ calls
       /\ Format.format ascii_tables bare_fields_only t data = inr (u "Hello World").
Proof.
  cbv zeta.
  assert (H1 : template (run ascii_tables bare_fields_only init
                           [FillTemplate (u "Hello {name}") {[ u "name" := u "World" ]};
                            FillTemplate (u "Bye {name}") ∅])
               = Some (u "Hello World")) by (vm_compute; reflexivity).
  exact (conj H1 (template_holds_a_filled_text ascii_tables bare_fields_only _ _ H1)).
Defined.

(** X19 at work: the file is read through [get_template] and then asked for
    through [load_content], by another name and with the file gone. *)
Lemma get_template_caches_content_witness :
  let fs : gmap text node := {[ u "prompt.md" := File three_lines ]} in
  template_cache init !! cache_key (u "prompt.md") = None
  /\ fs !! u "prompt.md" = Some (File three_lines)
  /\ endswith ext_md (u "prompt.md") || endswith ext_txt (u "prompt.md") = true
  /\ cache_key (u "old/prompt.txt") = cache_key (u "prompt.md")
  /\ fst (get_template init fs (u "prompt.md")) = flatten three_lines
  /\ fst (load_content (snd (get_template init fs (u "prompt.md"))) ∅ (u "old/prompt.txt"))
     = three_lines
  /\ fst (get_template (snd (get_template init fs (u "prompt.md"))) ∅ (u "old/prompt.txt"))
     = flatten three_lines.
Proof.
  cbv zeta.
  assert (H1 : template_cache init !! cache_key (u "prompt.md") = None)
    by (vm_compute; reflexivity).
  assert (H2 : ({[ u "prompt.md" := File three_lines ]} : gmap text node) !! u "prompt.md"
               = Some (File three_lines)) by (vm_compute; reflexivity).
  assert (H3 : endswith ext_md (u "prompt.md") || endswith ext_txt (u "prompt.md") = true)
    by (vm_compute; reflexivity).
  assert (H4 : cache_key (u "old/prompt.txt") = cache_key (u "prompt.md"))
    by (vm_compute; reflexivity).
  exact (conj H1 (conj H2 (conj H3 (conj H4
           (get_template_caches_content init _ ∅ (u "prompt.md") (u "old/prompt.txt")
              three_lines H1 H2 H3 H4))))).
Defined.

End InstancesMore.
